(** * RE6Module: module lifecycle and settings synchronisation

    A shallow embedding of [src/js/components/RE6Module.ts] (the [RE6Module]
    base class and the [Page] helper that follows it in the same file),
    together with the properties of the lifecycle / settings engine.

    Conventions of the embedding
    - the own properties of a JavaScript object are a [gmap string value]; a
      property written with [undefined] is a key bound to [VUndefined];
    - an object that the engine reads through or assigns into ([object]) has
      its own properties and a prototype: a read of a name that is not an
      own property goes on through the prototype chain, an assignment to
      such a name may reach the [__proto__] setter.  [Object.prototype] is
      written out; what any other prototype object contributes is left to
      the environment ([Realm]), and every statement holds in every
      environment;
    - properties are data properties (no getters on the records);
    - an asynchronous method is a state transformer that settles in an
      [outcome]; calls are awaited one after the other (the interleaving of
      independent call chains is not part of this development);
    - [XM.Storage] and [Hotkeys] are imported by the source but defined
      elsewhere: the storage is an interface ([Storage]) that hands out and
      takes the own properties of plain objects, the hotkey registry and one
      storage implementation are modelled from the specification. *)

From Stdlib Require Import ZArith Ascii String.
From stdpp Require Import base option list strings gmap fin_maps.

Local Open Scope string_scope.
Local Open Scope list_scope.

(** ** JavaScript values and property bags *)

(** Values stored in a settings record.  Nested objects, arrays and functions
    are opaque to the lifecycle engine (assignment is one level deep), so they
    are kept as references. *)
Inductive value : Type :=
| VUndefined
| VNull
| VBool (b : bool)
| VNum (n : Z)
| VStr (s : string)
| VRef (address : nat).

#[global] Instance value_eq_dec : EqDecision value.
Proof. solve_decision. Defined.

(** [v === undefined] *)
Definition is_undefined (v : value) : bool :=
  match v with
  | VUndefined => true
  | _ => false
  end.

(** ToBoolean *)
Definition truthy (v : value) : bool :=
  match v with
  | VUndefined | VNull => false
  | VBool b => b
  | VNum n => negb (n =? 0)%Z
  | VStr s => negb (String.eqb s "")
  | VRef _ => true
  end.

(** [a && b] *)
Definition js_and (a b : value) : value := if truthy a then b else a.

(** ** Strings *)

(** [s.split(sep)] for a one-character separator. *)
Fixpoint split (sep : ascii) (s : string) : list string :=
  match s with
  | EmptyString => [EmptyString]
  | String c rest =>
      if Ascii.eqb c sep then EmptyString :: split sep rest
      else match split sep rest with
           | seg :: segs => String c seg :: segs
           | [] => [String c EmptyString]
           end
  end.

(** [segs.join(sep)], and the strings that do not contain [sep]: together
    they say what [split] computes. *)
Fixpoint join (sep : ascii) (segs : list string) : string :=
  match segs with
  | [] => EmptyString
  | [seg] => seg
  | seg :: rest => seg +:+ String sep (join sep rest)
  end.

Fixpoint free_of (sep : ascii) (s : string) : bool :=
  match s with
  | EmptyString => true
  | String c rest => negb (Ascii.eqb c sep) && free_of sep rest
  end.

(** [s.replace(/[\/?]$/g, "")]: the pattern is anchored at the end of the
    input, so at most the last character is removed. *)
Fixpoint strip_trailing (s : string) : string :=
  match s with
  | EmptyString => EmptyString
  | String c EmptyString =>
      if Ascii.eqb c "/"%char || Ascii.eqb c "?"%char then EmptyString else s
  | String c rest => String c (strip_trailing rest)
  end.

(** ** Page *)

(** A [RegExp], seen through the only method the engine calls on it.  The
    patterns of [PageDefintion] carry no [g] or [y] flag, so [test] does not
    depend on earlier calls. *)
Record RegExp : Type := { test : string -> bool }.

(** The [filter] argument: [RegExp | RegExp[]]. *)
Inductive filter_arg : Type :=
| OnePattern (r : RegExp)
| Patterns (rs : list RegExp).

Module Page.

(** [Page.matches(filter)], with the pathname of the singleton's [url]
    given as [pathname]. *)
Definition matches (f : filter_arg) (pathname : string) : bool :=
  let filter := match f with OnePattern r => [r] | Patterns rs => rs end in
  let pathname := strip_trailing pathname in
  foldl (fun result constraint => result || test constraint pathname)
        false filter.

End Page.

(** ** Outcomes of calls *)

Inductive error : Type :=
| TypeError
| StorageError.

(** How a call ends.  For a synchronous method [Returned] and [Threw] are a
    normal return and an exception; for an asynchronous one they are a
    promise that resolves or rejects, and [Hung] is a promise that never
    settles. *)
Inductive outcome (A : Type) : Type :=
| Returned (a : A)
| Threw (e : error)
| Hung.

Arguments Returned {A} a.
Arguments Threw {A} e.
Arguments Hung {A}.

(** ** Objects *)

(** [Settings] / [SettingsProperty], [{ [prop: string]: any }]: the own
    properties of an object. *)
Abbreviation obj := (gmap string value).

(** [Object.keys(o)].  The keys come in the order of the map, not in the
    order of insertion; it is used for [defaultValues] only, where the loop
    assigns distinct own properties of a plain object, so its result does
    not depend on the order. *)
Definition keys_of (o : obj) : list string := (map_to_list o).*1.

(** [Object.prototype], and the functions it holds, are built-in objects at
    fixed addresses. *)
Definition Object_prototype : nat := 0.

Definition Object_prototype_members : list (string * nat) :=
  [ ("constructor", 1); ("__defineGetter__", 2); ("__defineSetter__", 3);
    ("hasOwnProperty", 4); ("__lookupGetter__", 5); ("__lookupSetter__", 6);
    ("isPrototypeOf", 7); ("propertyIsEnumerable", 8); ("toString", 9);
    ("valueOf", 10); ("toLocaleString", 11) ].

(** What an object whose prototype is [Object.prototype] inherits under
    [key]: one of the functions above, or, through the [__proto__] getter,
    its prototype. *)
Definition inherited (key : string) : option value :=
  if String.eqb key "__proto__" then Some (VRef Object_prototype)
  else VRef <$> (list_to_map Object_prototype_members : gmap string nat) !! key.

(** The prototype of an object: [Object.prototype] (an object literal, a
    deserialised record), [null], or another object. *)
Inductive prototype : Type :=
| ObjectPrototype
| NullPrototype
| Foreign (address : nat).

Record object : Type := Object {
  own : obj;
  proto : prototype;
}.

(** An object literal, or a record as the storage hands it out. *)
Definition plain (o : obj) : object := Object o ObjectPrototype.

(** What an assignment [o[key] = v] does when [key] is not an own property
    of [o]: it creates the own property, it replaces the prototype of [o]
    (the [__proto__] setter), it does nothing, or it throws. *)
Inductive assignment : Type :=
| CreatesOwn
| Replaces (p : prototype)
| Ignored
| Fails.

(** The environment: what a prototype other than [Object.prototype]
    contributes to a read of, and to an assignment to, a name that is not
    an own property. *)
Class Realm : Type := {
  foreign_get : nat -> string -> value;
  foreign_set : nat -> string -> value -> assignment;
}.

(** The [__proto__] setter of [Object.prototype]: an object or [null]
    becomes the prototype, anything else is ignored.  (The setter throws on
    a prototype whose chain leads back to the object; the records it is
    used on here are reachable from [this.settings] or from a local
    variable only, so no other object's chain contains them.) *)
Definition set_prototype (v : value) : assignment :=
  match v with
  | VRef address =>
      Replaces (if Nat.eqb address Object_prototype then ObjectPrototype
                else Foreign address)
  | VNull => Replaces NullPrototype
  | _ => Ignored
  end.

(** [o[key]] *)
Definition prop_get {realm : Realm} (o : object) (key : string) : value :=
  match own o !! key with
  | Some v => v
  | None =>
      match proto o with
      | ObjectPrototype => default VUndefined (inherited key)
      | NullPrototype => VUndefined
      | Foreign address => foreign_get address key
      end
  end.

(** [o[key] = v] *)
Definition prop_set {realm : Realm} (o : object) (key : string) (v : value)
  : outcome object :=
  match own o !! key with
  | Some _ => Returned (Object (<[key := v]> (own o)) (proto o))
  | None =>
      match
        match proto o with
        | ObjectPrototype =>
            if String.eqb key "__proto__" then set_prototype v else CreatesOwn
        | NullPrototype => CreatesOwn
        | Foreign address => foreign_set address key v
        end
      with
      | CreatesOwn => Returned (Object (<[key := v]> (own o)) (proto o))
      | Replaces p => Returned (Object (own o) p)
      | Ignored => Returned o
      | Fails => Threw TypeError
      end
  end.

(** An environment in which every other object is empty and inherits from
    [Object.prototype]. *)
Definition empty_objects : Realm := {|
  foreign_get address key :=
    if String.eqb key "__proto__" then VRef address
    else default VUndefined (inherited key);
  foreign_set address key v :=
    if String.eqb key "__proto__" then set_prototype v else CreatesOwn;
|}.

(** ** External collaborators *)

(** [XM.Storage]: the three operations the engine consumes.  An
    implementation owns a state of type [S]; every operation may resolve or
    reject and may change that state.  Records cross the interface by their
    own properties: what [getValue] resolves to is a plain object with these
    properties, and [setValue] is given those of the record to store. *)
Class Storage (S : Type) : Type := {
  getValue : string -> obj -> S -> outcome obj * S;
  setValue : string -> obj -> S -> outcome bool * S;
  deleteValue : string -> S -> outcome bool * S;
}.

(** A JavaScript function, known by its identity only; [Inert] is the arrow
    function [() => { return; }] that [resetHotkeys] writes out. *)
Inductive Function : Type :=
| Declared (id : nat)
| Inert.

#[global] Instance Function_eq_dec : EqDecision Function.
Proof. solve_decision. Defined.

(** [JQuery<HTMLElement>], opaque. *)
Definition JQuery : Type := nat.

(** [interface Hotkey] *)
Record Hotkey : Type := {
  keys : string;
  fnct : Function;
  element : option JQuery;
  selector : option string;
}.

(** One [Hotkeys.register(key, fnct, element, selector)] call. *)
Record registration : Type := {
  reg_key : string;
  reg_fnct : Function;
  reg_element : option JQuery;
  reg_selector : option string;
}.

#[global] Instance registration_eq_dec : EqDecision registration.
Proof. solve_decision. Defined.

Module Hotkeys.

(** Modelled from the spec: the [Hotkeys] registry ("HotkeyRegistry"), whose
    source is not part of the module file.  The spec describes a
    process-wide table from key combination to armed handler in which
    registering a combination overwrites the earlier binding and nothing is
    ever removed.  The table is kept as the sequence of [register] calls,
    latest first; the handler armed for a combination is the one of its
    latest call. *)
Definition table : Type := list registration.

Definition register (key : string) (fnct : Function)
           (element : option JQuery) (selector : option string)
           (t : table) : table :=
  {| reg_key := key; reg_fnct := fnct;
     reg_element := element; reg_selector := selector |} :: t.

(** The binding currently armed for [key]. *)
Fixpoint armed (t : table) (key : string) : option registration :=
  match t with
  | [] => None
  | r :: older => if String.eqb (reg_key r) key then Some r else armed older key
  end.

End Hotkeys.

(** ** The module instance *)

Record RE6Module : Type := {
  settingsTag : string;
  settings : option object;         (* [None]: the field was never assigned *)
  waitForDOM : bool;
  enabled : value;                  (* [VUndefined] until assigned *)
  initialized : bool;
  constraint : list RegExp;
  hotkeys : list Hotkey;
  (* [getDefaultSettings()], which subclasses override: a fresh object
     literal on every call *)
  getDefaultSettings : obj;
}.

Definition with_settings (s : option object) (m : RE6Module) : RE6Module :=
  {| settingsTag := settingsTag m; settings := s; waitForDOM := waitForDOM m;
     enabled := enabled m; initialized := initialized m;
     constraint := constraint m; hotkeys := hotkeys m;
     getDefaultSettings := getDefaultSettings m |}.

Definition with_enabled (e : value) (m : RE6Module) : RE6Module :=
  {| settingsTag := settingsTag m; settings := settings m;
     waitForDOM := waitForDOM m;
     enabled := e; initialized := initialized m;
     constraint := constraint m; hotkeys := hotkeys m;
     getDefaultSettings := getDefaultSettings m |}.

Definition with_initialized (i : bool) (m : RE6Module) : RE6Module :=
  {| settingsTag := settingsTag m; settings := settings m;
     waitForDOM := waitForDOM m;
     enabled := enabled m; initialized := i;
     constraint := constraint m; hotkeys := hotkeys m;
     getDefaultSettings := getDefaultSettings m |}.

Definition with_hotkeys (h : list Hotkey) (m : RE6Module) : RE6Module :=
  {| settingsTag := settingsTag m; settings := settings m;
     waitForDOM := waitForDOM m;
     enabled := enabled m; initialized := initialized m;
     constraint := constraint m; hotkeys := h;
     getDefaultSettings := getDefaultSettings m |}.

(** The defaults of the base class: [{ enabled: true }]. *)
Definition base_defaults : obj := {[ "enabled" := VBool true ]}.

(** [new C(constraint, waitForDOM, settingsTag)] for a class named
    [className] whose [getDefaultSettings] returns [defaults]. *)
Definition constructor (className : string) (defaults : obj)
           (constraint : option filter_arg) (waitForDOM : option bool)
           (settingsTag : option string) : RE6Module :=
  {| settingsTag :=
       match settingsTag with
       | Some tag => if truthy (VStr tag) then tag else className
       | None => className
       end;
     settings := None;
     waitForDOM := default false waitForDOM;
     enabled := VUndefined;
     initialized := false;
     constraint :=
       match constraint with
       | None => []
       | Some (OnePattern r) => [] ++ [r]
       | Some (Patterns rs) => rs
       end;
     hotkeys := [];
     getDefaultSettings := defaults |}.

(** ** The state the methods run in *)

(** The instance ([this]) and the three pieces of ambient state its methods
    reach: the storage backend, the process-wide hotkey table and the
    pathname of the current location. *)
Record state (S : Type) : Type := State {
  this : RE6Module;
  storage : S;
  hotkey_table : Hotkeys.table;
  pathname : string;
}.

Arguments State {S} _ _ _ _.
Arguments this {S} _.
Arguments storage {S} _.
Arguments hotkey_table {S} _.
Arguments pathname {S} _.

(** A method: runs from a state, ends in an outcome and a state.  What was
    written before an exception stays written. *)
Definition M (S A : Type) : Type := state S -> outcome A * state S.

Definition ret {S A} (a : A) : M S A := fun st => (Returned a, st).

Definition throw {S A} (e : error) : M S A := fun st => (Threw e, st).

Definition bind {S A B} (c : M S A) (k : A -> M S B) : M S B :=
  fun st =>
    match c st with
    | (Returned a, st') => k a st'
    | (Threw e, st') => (Threw e, st')
    | (Hung, st') => (Hung, st')
    end.

Notation "'let*' x := c 'in' k" := (bind c (fun x => k))
  (at level 10, x name, c at level 100, k at level 200, only parsing).
Notation "c ;;; k" := (bind c (fun _ => k))
  (at level 100, k at level 200, right associativity, only parsing).

(** Reading and writing [this]. *)
Definition self {S} : M S RE6Module := fun st => (Returned (this st), st).

Definition update {S} (f : RE6Module -> RE6Module) : M S unit :=
  fun st =>
    (Returned tt, State (f (this st)) (storage st) (hotkey_table st) (pathname st)).

(** A synchronous computation that only reads [this]. *)
Definition reading {S A} (f : RE6Module -> outcome A) : M S A :=
  fun st => (f (this st), st).

(** [list.forEach(body)]: an exception in [body] ends the loop. *)
Fixpoint forEach {S A} (l : list A) (body : A -> M S unit) : M S unit :=
  match l with
  | [] => ret tt
  | x :: rest => body x ;;; forEach rest body
  end.

(** [new Promise(async (resolve) => { ...; resolve(v) })]: the promise resolves
    with what the executor passes to [resolve]; when the executor fails
    before that, nothing settles the promise. *)
Definition promise_of {S A} (executor : M S A) : M S A :=
  fun st =>
    match executor st with
    | (Returned a, st') => (Returned a, st')
    | (_, st') => (Hung, st')
    end.

(** ** Synchronous methods *)

(** [pageMatchesFilter()] *)
Definition pageMatchesFilter (m : RE6Module) (pathname : string) : bool :=
  Nat.eqb (length (constraint m)) 0
  || Page.matches (Patterns (constraint m)) pathname.

(** [isInitialized()] *)
Definition isInitialized (m : RE6Module) : bool := initialized m.

(** [canInitialize()]: [!this.initialized && this.pageMatchesFilter() &&
    this.enabled], with the value semantics of [&&]. *)
Definition canInitialize (m : RE6Module) (pathname : string) : value :=
  js_and (js_and (VBool (negb (initialized m)))
                 (VBool (pageMatchesFilter m pathname)))
         (enabled m).

(** [getSettingsTag()] *)
Definition getSettingsTag (m : RE6Module) : string := settingsTag m.

(** [isWaitingForDOM()] *)
Definition isWaitingForDOM (m : RE6Module) : bool := waitForDOM m.

(** [create()] *)
Definition create (m : RE6Module) : RE6Module := with_initialized true m.

(** [destroy()] *)
Definition destroy (m : RE6Module) : RE6Module := with_initialized false m.

(** [isEnabled()] *)
Definition isEnabled (m : RE6Module) : value := enabled m.

(** [setEnabled(enabled)] *)
Definition setEnabled (enabled : bool) (m : RE6Module) : RE6Module :=
  with_enabled (VBool enabled) m.

(** [this.settings[key]]: a [TypeError] when [this.settings] is undefined. *)
Definition settings_get {realm : Realm} (m : RE6Module) (key : string)
  : outcome value :=
  match settings m with
  | Some s => Returned (prop_get s key)
  | None => Threw TypeError
  end.

(** The [property] argument of [fetchSettings]: [string | string[]]. *)
Inductive property : Type :=
| Name (p : string)
| Names (ps : list string).

(** What [fetchSettings] returns: a value for a name, an object for a list. *)
Inductive fetched : Type :=
| Single (v : value)
| Several (o : object).

(** The loop of the list form:
    [property.forEach(entry => { result[entry] = this.settings[entry]; })]. *)
Fixpoint collect {realm : Realm} (m : RE6Module) (entries : list string)
         (result : object) : outcome object :=
  match entries with
  | [] => Returned result
  | entry :: rest =>
      match settings_get m entry with
      | Returned v =>
          match prop_set result entry v with
          | Returned result => collect m rest result
          | Threw e => Threw e
          | Hung => Hung
          end
      | Threw e => Threw e
      | Hung => Hung
      end
  end.

(** [fetchSettings(property)] without [fresh]: the part below the
    [if (fresh)] block. *)
Definition fetchSettings_cached {realm : Realm} (m : RE6Module) (p : property)
  : outcome fetched :=
  match p with
  | Names entries =>
      match collect m entries (plain ∅) with
      | Returned result => Returned (Several result)
      | Threw e => Threw e
      | Hung => Hung
      end
  | Name key =>
      match settings_get m key with
      | Returned v => Returned (Single v)
      | Threw e => Threw e
      | Hung => Hung
      end
  end.

(** The default backfill of [loadSettingsValues]:
    [for (const key of Object.keys(defaultValues))
       if (result[key] === undefined) result[key] = defaultValues[key];] *)
Fixpoint backfill_loop {realm : Realm} (defaultValues : object)
         (keys : list string) (result : object) : outcome object :=
  match keys with
  | [] => Returned result
  | key :: rest =>
      if is_undefined (prop_get result key)
      then match prop_set result key (prop_get defaultValues key) with
           | Returned result => backfill_loop defaultValues rest result
           | Threw e => Threw e
           | Hung => Hung
           end
      else backfill_loop defaultValues rest result
  end.

Definition backfill {realm : Realm} (defaultValues result : obj)
  : outcome object :=
  backfill_loop (plain defaultValues) (keys_of defaultValues) (plain result).

(** The first argument(s) of [pushSettings]: a name with a value, or a record
    of name/value pairs. *)
Inductive pushed : Type :=
| Pair (property : string) (v : value)
| Record_ (property : list (string * value)).

(** The record argument is given by its own enumerable properties, in the
    order of [Object.keys(property)]; [property[key]] reads one of them. *)
Fixpoint own_get (property : list (string * value)) (key : string) : value :=
  match property with
  | [] => VUndefined
  | (k, v) :: rest => if String.eqb k key then v else own_get rest key
  end.

(** [value.split("|")] on whatever [fetchSettings] returned: only a string
    has the method. *)
Definition split_value (v : value) : outcome (list string) :=
  match v with
  | VStr s => Returned (split "|"%char s)
  | _ => Threw TypeError
  end.

(** ** Asynchronous methods *)

Section Methods.

Context {realm : Realm} {S : Type} `{Storage S}.

(** The calls into [XM.Storage] and [Hotkeys], acting on their part of the
    state. *)
Definition XM_getValue (name : string) (defaultValue : obj) : M S obj :=
  fun st =>
    let '(r, s) := getValue name defaultValue (storage st) in
    (r, State (this st) s (hotkey_table st) (pathname st)).

Definition XM_setValue (name : string) (v : obj) : M S bool :=
  fun st =>
    let '(r, s) := setValue name v (storage st) in
    (r, State (this st) s (hotkey_table st) (pathname st)).

Definition XM_deleteValue (name : string) : M S bool :=
  fun st =>
    let '(r, s) := deleteValue name (storage st) in
    (r, State (this st) s (hotkey_table st) (pathname st)).

Definition Hotkeys_register (key : string) (fnct : Function)
           (element : option JQuery) (selector : option string) : M S unit :=
  fun st =>
    (Returned tt,
     State (this st) (storage st)
           (Hotkeys.register key fnct element selector (hotkey_table st))
           (pathname st)).

(** [loadSettingsValues()] *)
Definition loadSettingsValues : M S object :=
  let* m := self in
  let defaultValues := getDefaultSettings m in
  let* result := XM_getValue ("re621." +:+ settingsTag m) defaultValues in
  reading (fun _ => backfill defaultValues result).

(** [loadSettingsCache()] *)
Definition loadSettingsCache : M S bool :=
  let* values := loadSettingsValues in
  update (with_settings (Some values)) ;;;
  ret true.

(** [prepare()]; [fetchSettings] is called with a name. *)
Definition prepare : M S unit :=
  loadSettingsCache ;;;
  let* v := reading (fun m => settings_get m "enabled") in
  update (with_enabled v).

(** [fetchSettings(property, fresh)] *)
Definition fetchSettings (p : property) (fresh : bool) : M S fetched :=
  if fresh then
    promise_of (loadSettingsCache ;;;
                reading (fun m => fetchSettings_cached m p))
  else reading (fun m => fetchSettings_cached m p).

(** [fetchSettingsGently(property)] *)
Definition fetchSettingsGently (p : string) : M S value :=
  let* values := loadSettingsValues in
  ret (prop_get values p).

(** [this.settings[key] = v] *)
Definition assign (key : string) (v : value) : M S unit :=
  fun st =>
    match settings (this st) with
    | Some s =>
        match prop_set s key v with
        | Returned s => update (with_settings (Some s)) st
        | Threw e => (Threw e, st)
        | Hung => (Hung, st)
        end
    | None => (Threw TypeError, st)
    end.

(** [saveSettingsCache()].  The storage is handed the own properties of
    the record.  The method is private and its only caller has just assigned
    [this.settings]; the storage interface carries records, so a call with
    the field still unassigned is cut short. *)
Definition saveSettingsCache : M S bool :=
  let* m := self in
  match settings m with
  | Some s => XM_setValue ("re621." +:+ settingsTag m) (own s)
  | None => throw TypeError
  end.

(** [pushSettings(property, value)] and [pushSettings(property)] *)
Definition pushSettings (p : pushed) : M S bool :=
  loadSettingsCache ;;;
  match p with
  | Pair property v => assign property v
  | Record_ property =>
      forEach property.*1
              (fun key => assign key (own_get property key))
  end ;;;
  saveSettingsCache.

(** [clearSettings()] *)
Definition clearSettings : M S bool :=
  let* m := self in
  XM_deleteValue ("re621." +:+ settingsTag m) ;;;
  loadSettingsCache.

(** [refreshSettings()] *)
Definition refreshSettings : M S bool := loadSettingsCache.

(** [getSavedSettings()] *)
Definition getSavedSettings : M S (string * obj) :=
  let* m := self in
  let* data := XM_getValue ("re621." +:+ settingsTag m) ∅ in
  ret ("re621." +:+ settingsTag m, data).

(** [resetHotkeys()] *)
Definition resetHotkeys : M S unit :=
  loadSettingsCache ;;;
  let* enabled := (fun st => (Returned (pageMatchesFilter (this st) (pathname st)), st)) in
  let* m := self in
  forEach (hotkeys m) (fun value =>
    let* combos := reading (fun m =>
                match settings_get m (keys value) with
                | Returned v => split_value v
                | Threw e => Threw e
                | Hung => Hung
                end) in
    forEach combos (fun key =>
      if String.eqb key "" then ret tt
      else if enabled : bool
           then Hotkeys_register key (fnct value) (element value) (selector value)
           else Hotkeys_register key Inert None None)).

(** [registerHotkeys(...hotkeys)]: the call to [resetHotkeys] is not
    awaited, so the method returns whatever becomes of it; here the reset
    runs to its end before the next call. *)
Definition registerHotkeys (more : list Hotkey) : M S unit :=
  update (fun m => with_hotkeys (hotkeys m ++ more) m) ;;;
  (fun st => (Returned tt, (resetHotkeys st).2)).

(** *** Calls, for statements that range over every method *)

Inductive call : Type :=
| Prepare
| IsInitialized
| CanInitialize
| GetSettingsTag
| IsWaitingForDOM
| Create
| Destroy
| IsEnabled
| SetEnabled (enabled : bool)
| FetchSettings (p : property) (fresh : bool)
| FetchSettingsGently (p : string)
| PushSettings (p : pushed)
| ClearSettings
| LoadSettingsCache
| LoadSettingsValues
| SaveSettingsCache
| RefreshSettings
| GetSavedSettings
| ResetHotkeys
| RegisterHotkeys (more : list Hotkey).

(** The state a call leaves behind, however it ends. *)
Definition after (c : call) (st : state S) : state S :=
  match c with
  | Prepare => (prepare st).2
  | IsInitialized | CanInitialize | GetSettingsTag | IsWaitingForDOM
  | IsEnabled => st
  | Create => (update create st).2
  | Destroy => (update destroy st).2
  | SetEnabled enabled => (update (setEnabled enabled) st).2
  | FetchSettings p fresh => (fetchSettings p fresh st).2
  | FetchSettingsGently p => (fetchSettingsGently p st).2
  | PushSettings p => (pushSettings p st).2
  | ClearSettings => (clearSettings st).2
  | LoadSettingsCache => (loadSettingsCache st).2
  | LoadSettingsValues => (loadSettingsValues st).2
  | SaveSettingsCache => (saveSettingsCache st).2
  | RefreshSettings => (refreshSettings st).2
  | GetSavedSettings => (getSavedSettings st).2
  | ResetHotkeys => (resetHotkeys st).2
  | RegisterHotkeys more => (registerHotkeys more st).2
  end.

(** A sequence of calls, each started when the one before has ended. *)
Definition after_all (cs : list call) (st : state S) : state S :=
  foldl (fun st c => after c st) st cs.

End Methods.

(** ** A storage backend *)

(** The condition of the backend: working, refusing writes (an operation
    that changes the store resolves to [false] and changes nothing), or
    unreachable (every operation rejects). *)
Inductive health : Type :=
| Healthy
| Failing
| Unavailable.

Record kvstore : Type := {
  cells : gmap string obj;
  condition : health;
}.

(** Modelled from the spec: [XM.Storage] ("KeyValueStore"), whose source is
    not part of the module file.  The spec gives the three operations
    [getValue(key, defaultValue) -> value], [setValue(key, value) -> success]
    and [deleteValue(key) -> success], says that a missing key reads as
    [defaultValue], and that an operation fails by rejecting or by returning
    a falsy result. *)
#[global] Instance kvstore_storage : Storage kvstore := {
  getValue name defaultValue s :=
    match condition s with
    | Unavailable => (Threw StorageError, s)
    | _ => (Returned (default defaultValue (cells s !! name)), s)
    end;
  setValue name v s :=
    match condition s with
    | Healthy => (Returned true, {| cells := <[name := v]> (cells s); condition := Healthy |})
    | Failing => (Returned false, s)
    | Unavailable => (Threw StorageError, s)
    end;
  deleteValue name s :=
    match condition s with
    | Healthy => (Returned true, {| cells := delete name (cells s); condition := Healthy |})
    | Failing => (Returned false, s)
    | Unavailable => (Threw StorageError, s)
    end;
}.

(** A pattern of [PageDefintion], by hand: [post] is [/^\/posts\/\d+\/?$/]. *)
Definition is_digit (c : ascii) : bool :=
  (48 <=? nat_of_ascii c)%nat && (nat_of_ascii c <=? 57)%nat.

Fixpoint digits_then_optional_slash (seen : bool) (s : string) : bool :=
  match s with
  | EmptyString => seen
  | String c rest =>
      if is_digit c then digits_then_optional_slash true rest
      else seen && Ascii.eqb c "/"%char
           && match rest with EmptyString => true | _ => false end
  end.

Definition PageDefintion_post : RegExp :=
  {| test subject :=
       match subject with
       | String "/" (String "p" (String "o" (String "s" (String "t"
           (String "s" (String "/" rest)))))) =>
           digits_then_optional_slash false rest
       | _ => false
       end |}.

(** The other patterns of [PageDefintion], by hand: [search] is
    [/^$|^\/posts\/?$/] and [forum] is [/^\/forum_topics\/?.*/] (the
    pattern is not anchored at the end, so it accepts whatever follows the
    prefix). *)
Definition PageDefintion_search : RegExp :=
  {| test subject :=
       String.eqb subject "" || String.eqb subject "/posts"
       || String.eqb subject "/posts/" |}.

Definition PageDefintion_forum : RegExp :=
  {| test subject := String.prefix "/forum_topics" subject |}.

(** The strings of decimal digits. *)
Fixpoint all_digits (s : string) : bool :=
  match s with
  | EmptyString => true
  | String c rest => is_digit c && all_digits rest
  end.

(** ** Notions used in the statements and proofs *)

(** A method keeps the instance within the relation [R], however it ends. *)
Definition keeps {S A : Type} (R : RE6Module -> RE6Module -> Prop) (c : M S A)
  : Prop :=
  forall st, R (this st) (this (c st).2).

(** The relation "the field has not changed". *)
Definition same_field {X : Type} (field : RE6Module -> X) (m m' : RE6Module)
  : Prop :=
  field m' = field m.

(** The relation "a loaded cache is still loaded". *)
Definition still_loaded (m m' : RE6Module) : Prop :=
  is_Some (settings m) -> is_Some (settings m').

(** [pushSettings(p)] assigns [v] to the property [key]. *)
Definition pushes (p : pushed) (key : string) (v : value) : Prop :=
  match p with
  | Pair property v' => property = key /\ v' = v
  | Record_ property => (list_to_map property : obj) !! key = Some v
  end.

(** [pushSettings(p)] makes no assignment to [__proto__]. *)
Definition proto_free (p : pushed) : Prop :=
  match p with
  | Pair property _ => property <> "__proto__"
  | Record_ property => "__proto__" ∉ property.*1
  end.

(** The own properties [pushSettings(p)] makes of the own properties [s] of
    a freshly loaded record, for a [p] that is [proto_free]. *)
Definition merged (p : pushed) (s : obj) : obj :=
  match p with
  | Pair property v => <[property := v]> s
  | Record_ property => list_to_map property ∪ s
  end.

(** The own properties the default backfill leaves in a plain record: a
    stored property other than [undefined] stays; a default is taken where
    the stored record has [undefined] of its own, and where it has nothing
    and inherits nothing. *)
Definition backfilled (D S : obj) : obj :=
  filter (fun kv => kv.2 <> VUndefined) S
  ∪ filter (fun kv => is_Some (S !! kv.1) \/ inherited kv.1 = None) D
  ∪ S.

(** The [Hotkeys.register] call that [resetHotkeys] makes for the combination
    [key] of the binding [value]: the binding's handler, element and selector
    when the page matches, the inert handler alone when it does not. *)
Definition binding_registration (page_match : bool) (value : Hotkey)
           (key : string) : registration :=
  if page_match
  then {| reg_key := key; reg_fnct := fnct value;
          reg_element := element value; reg_selector := selector value |}
  else {| reg_key := key; reg_fnct := Inert;
          reg_element := None; reg_selector := None |}.

(** The calls made for one binding, first call first, given the segments of
    its configured string. *)
Definition binding_registrations (page_match : bool) (value : Hotkey)
           (combos : list string) : list registration :=
  binding_registration page_match value
    <$> filter (fun key => key <> "") combos.

(** The calls made for a list of bindings, first call first, with the way the
    loop ends: a binding whose setting is not a string stops it. *)
Fixpoint registrations_of {realm : Realm} (page_match : bool) (s : object)
         (bindings : list Hotkey) : outcome unit * list registration :=
  match bindings with
  | [] => (Returned tt, [])
  | value :: rest =>
      match split_value (prop_get s (keys value)) with
      | Returned combos =>
          let '(r, later) := registrations_of page_match s rest in
          (r, binding_registrations page_match value combos ++ later)
      | Threw e => (Threw e, [])
      | Hung => (Hung, [])
      end
  end.

(** Two instances that differ in the enabled field at most. *)
Definition same_but_enabled (m1 m2 : RE6Module) : Prop :=
  m2 = with_enabled (enabled m2) m1.

(** The storage key every method of the instance uses:
    ["re621." + this.settingsTag]. *)
Definition own_key {S : Type} (st : state S) : string :=
  "re621." +:+ settingsTag (this st).

(** The calls that reach [XM.Storage.setValue] or [XM.Storage.deleteValue]. *)
Definition writes_storage (c : call) : bool :=
  match c with
  | PushSettings _ | ClearSettings | SaveSettingsCache => true
  | _ => false
  end.

(** What the constructor fixes: tag, constraint, DOM gate and the class's
    defaults. *)
Definition same_construction (m m' : RE6Module) : Prop :=
  settingsTag m' = settingsTag m
  /\ constraint m' = constraint m
  /\ waitForDOM m' = waitForDOM m
  /\ getDefaultSettings m' = getDefaultSettings m.

(** The bindings a call declares. *)
Definition declared_by (c : call) : list Hotkey :=
  match c with
  | RegisterHotkeys more => more
  | _ => []
  end.

(** * Properties *)

(** ** Strings and pages *)

Example split_pipe :
  split "|" "a|b" = ["a"; "b"]
  /\ split "|" "a||b" = ["a"; ""; "b"]
  /\ split "|" "alt+return" = ["alt+return"]
  /\ split "|" "" = [""]
  /\ split "|" "|" = [""; ""].
Proof. repeat split; reflexivity. Qed.

Example strip_trailing_once :
  strip_trailing "/posts/" = "/posts"
  /\ strip_trailing "/posts//" = "/posts/"
  /\ strip_trailing "/posts?" = "/posts"
  /\ strip_trailing "/" = ""
  /\ strip_trailing "/posts/45" = "/posts/45".
Proof. repeat split; reflexivity. Qed.

Example post_pattern :
  test PageDefintion_post "/posts/45" = true
  /\ test PageDefintion_post "/posts/45/" = true
  /\ test PageDefintion_post "/posts/" = false
  /\ test PageDefintion_post "/posts/45/edit" = false
  /\ test PageDefintion_post "/forum_topics/45" = false.
Proof. repeat split; reflexivity. Qed.

Lemma split_free (sep : ascii) (s : string) :
  free_of sep s = true -> split sep s = [s].
Proof.
  induction s as [|c s IH]; simpl; [done|].
  intros [Hc Hs]%andb_prop. apply negb_true_iff in Hc.
  by rewrite Hc, IH.
Qed.

Lemma split_segment (sep : ascii) (seg rest : string) :
  free_of sep seg = true ->
  split sep (seg +:+ String sep rest) = seg :: split sep rest.
Proof.
  induction seg as [|c seg IH]; simpl.
  - by rewrite Ascii.eqb_refl.
  - intros [Hc Hs]%andb_prop. apply negb_true_iff in Hc.
    by rewrite Hc, IH.
Qed.

(** [split] undoes [join]: the segments are the maximal runs without the
    separator, empty ones included. *)
Lemma split_join (sep : ascii) (segs : list string) :
  segs <> [] -> Forall (fun seg => free_of sep seg = true) segs ->
  split sep (join sep segs) = segs.
Proof.
  intros Hne Hfree. induction Hfree as [|seg segs Hseg Hsegs IH]; [done|].
  destruct segs as [|seg' segs].
  - simpl. by apply split_free.
  - change (join sep (seg :: seg' :: segs))
      with (seg +:+ String sep (join sep (seg' :: segs))).
    rewrite split_segment by done. by rewrite IH.
Qed.

Lemma strip_trailing_app (s : string) (c : ascii) :
  strip_trailing (s +:+ String c EmptyString) =
  if Ascii.eqb c "/"%char || Ascii.eqb c "?"%char
  then s else s +:+ String c EmptyString.
Proof.
  induction s as [|a s IH]; simpl.
  - reflexivity.
  - rewrite IH. destruct (s +:+ String c EmptyString) eqn:E.
    + destruct s; discriminate.
    + rewrite <- E. destruct (Ascii.eqb c "/" || Ascii.eqb c "?"); reflexivity.
Qed.

Lemma foldl_orb {A} (f : A -> bool) (l : list A) (b : bool) :
  foldl (fun result x => result || f x) b l = b || existsb f l.
Proof.
  revert b. induction l as [|x l IH]; intros b; simpl.
  - by rewrite orb_false_r.
  - rewrite IH. by rewrite orb_assoc.
Qed.

Lemma matches_exists (P : list RegExp) (p : string) :
  Page.matches (Patterns P) p = true <->
  exists c, c ∈ P /\ test c (strip_trailing p) = true.
Proof.
  unfold Page.matches. rewrite foldl_orb. simpl. rewrite existsb_exists.
  split; intros (c & Hc & Ht); exists c; split; auto;
    by apply list_elem_of_In.
Qed.

(** C6.  The page-match test on a pattern sequence is true exactly when some
    pattern of the sequence accepts the current path with one trailing ['/']
    or ['?'] taken off (a single pattern is tested the same way; a path that
    ends in another character, or is empty, is tested as it is).  At the
    lifecycle layer a module without constraints matches every page: there
    [pageMatchesFilter] answers [true] by itself, where the matcher on the
    empty sequence would answer [false]; with constraints it is the
    matcher's answer. *)
Theorem page_match_any_pattern :
  (forall (P : list RegExp) (p : string),
      Page.matches (Patterns P) p = true <->
      exists c, c ∈ P /\ test c (strip_trailing p) = true)
  /\ (forall (r : RegExp) (p : string),
         Page.matches (OnePattern r) p = test r (strip_trailing p))
  /\ (forall s : string,
         strip_trailing (s +:+ "/") = s /\ strip_trailing (s +:+ "?") = s)
  /\ (forall (s : string) (c : ascii),
         c <> "/"%char -> c <> "?"%char ->
         strip_trailing (s +:+ String c "") = s +:+ String c "")
  /\ strip_trailing "" = ""
  /\ (forall (m : RE6Module) (p : string),
         constraint m = [] -> pageMatchesFilter m p = true)
  /\ (forall p : string, Page.matches (Patterns []) p = false)
  /\ (forall (m : RE6Module) (p : string),
         constraint m <> [] ->
         pageMatchesFilter m p = Page.matches (Patterns (constraint m)) p).
Proof.
  split; [exact matches_exists|].
  split; [intros r p; unfold Page.matches; simpl; reflexivity|].
  split; [intros s; split; apply strip_trailing_app|].
  split.
  { intros s c H1 H2. rewrite strip_trailing_app.
    apply Ascii.eqb_neq in H1, H2. by rewrite H1, H2. }
  split; [reflexivity|].
  split; [intros m p E; unfold pageMatchesFilter; by rewrite E|].
  split; [reflexivity|].
  intros m p E. unfold pageMatchesFilter.
  destruct (constraint m); [done | reflexivity].
Qed.

Lemma page_match_any_pattern_witness :
  Page.matches (Patterns [PageDefintion_post]) "/posts/45/" = true
  /\ strip_trailing ("/posts/4" +:+ String "5" "") = "/posts/45"
  /\ pageMatchesFilter
       (constructor "RE6Module" base_defaults None None None) "/anything" = true
  /\ pageMatchesFilter
       (constructor "Post" base_defaults
                    (Some (OnePattern PageDefintion_post)) None None) "/forum"
     = false.
Proof.
  destruct page_match_any_pattern
    as (Hany & _ & _ & Hkeep & _ & Hempty & _ & Hsome).
  split.
  { apply Hany. exists PageDefintion_post.
    split; [apply list_elem_of_here | reflexivity]. }
  split; [apply Hkeep; discriminate|].
  split; [apply Hempty; reflexivity|].
  rewrite Hsome; [reflexivity | discriminate].
Defined.

(** ** Objects *)

Section Objects.

Context {realm : Realm}.

Lemma prop_get_plain (r : obj) (k : string) :
  prop_get (plain r) k =
  match r !! k with
  | Some v => v
  | None => default VUndefined (inherited k)
  end.
Proof. reflexivity. Qed.

Lemma prop_get_own (o : object) (k : string) (v : value) :
  own o !! k = Some v -> prop_get o k = v.
Proof. intros E. unfold prop_get. by rewrite E. Qed.

Lemma inherited_defined (k : string) (v : value) :
  inherited k = Some v -> is_undefined v = false.
Proof.
  unfold inherited. destruct (String.eqb k "__proto__"); [by intros [= <-]|].
  destruct (_ !! k); [by intros [= <-] | done].
Qed.

Lemma inherited_proto : inherited "__proto__" = Some (VRef Object_prototype).
Proof. reflexivity. Qed.

(** An assignment to a plain object under any name but [__proto__] makes
    the own property. *)
Lemma prop_set_plain (r : obj) (k : string) (v : value) :
  k <> "__proto__" -> prop_set (plain r) k v = Returned (plain (<[k := v]> r)).
Proof.
  intros Hk. unfold prop_set. simpl.
  destruct (r !! k); [done|].
  apply String.eqb_neq in Hk. by rewrite Hk.
Qed.

(** So does an assignment under a name that reads as [undefined]. *)
Lemma prop_set_undefined (r : obj) (k : string) (v : value) :
  is_undefined (prop_get (plain r) k) = true ->
  prop_set (plain r) k v = Returned (plain (<[k := v]> r)).
Proof.
  rewrite prop_get_plain. unfold prop_set. simpl.
  destruct (r !! k); [done|].
  unfold inherited. by destruct (String.eqb k "__proto__").
Qed.

(** An assignment of a primitive value to [__proto__] of a plain object
    that does not own the name is lost. *)
Lemma prop_set_proto_ignored (r : obj) (v : value) :
  r !! "__proto__" = None ->
  match v with VRef _ | VNull => False | _ => True end ->
  prop_set (plain r) "__proto__" v = Returned (plain r).
Proof.
  intros E Hv. unfold prop_set. simpl. rewrite E.
  by destruct v.
Qed.

Lemma own_get_lookup (P : list (string * value)) (k : string) :
  own_get P k = default VUndefined ((list_to_map P : obj) !! k).
Proof.
  induction P as [|[k' v] P IH]; [done|].
  simpl. destruct (String.eqb k' k) eqn:E.
  - apply String.eqb_eq in E as ->. by rewrite lookup_insert_eq.
  - apply String.eqb_neq in E. by rewrite lookup_insert_ne.
Qed.

End Objects.

(** ** Default backfill *)

Section Backfill.

Context {realm : Realm}.
Variable D : obj.

Let step (result : obj) (key : string) : obj :=
  if is_undefined (prop_get (plain result) key)
  then <[key := prop_get (plain D) key]> result
  else result.

Lemma backfill_loop_plain (l : list string) (r : obj) :
  backfill_loop (plain D) l (plain r) = Returned (plain (foldl step r l)).
Proof.
  revert r. induction l as [|a l IH]; intros r; [done|].
  cbn [backfill_loop foldl]. unfold step at 2.
  destruct (is_undefined (prop_get (plain r) a)) eqn:U; [|apply IH].
  rewrite prop_set_undefined by done. apply IH.
Qed.

Lemma backfill_step_other (r : obj) (a k : string) :
  a <> k -> step r a !! k = r !! k.
Proof.
  intros Hne. unfold step.
  destruct (is_undefined (prop_get (plain r) a)); [|done].
  by rewrite lookup_insert_ne.
Qed.

Lemma backfill_step_same (r : obj) (k : string) :
  step r k !! k =
  if is_undefined (prop_get (plain r) k)
  then Some (prop_get (plain D) k) else r !! k.
Proof.
  unfold step.
  destruct (is_undefined (prop_get (plain r) k)); [|done].
  by rewrite lookup_insert_eq.
Qed.

Lemma backfill_fold_lookup (l : list string) (r : obj) (k : string) :
  NoDup l ->
  foldl step r l !! k =
  if decide (k ∈ l)
  then (if is_undefined (prop_get (plain r) k)
        then Some (prop_get (plain D) k) else r !! k)
  else r !! k.
Proof.
  intros Hnd. revert r.
  induction Hnd as [|a l Ha Hnd IH]; intros r; cbn [foldl].
  - destruct (decide (k ∈ [])) as [Hin|_]; [|done].
    by apply not_elem_of_nil in Hin.
  - rewrite IH.
    destruct (decide (k ∈ l)) as [Hin|Hnin];
      destruct (decide (k ∈ a :: l)) as [Hin'|Hnin'].
    + assert (Hne : a <> k) by (intros ->; done).
      rewrite (prop_get_plain (step r a)), (backfill_step_other r a k Hne).
      by rewrite <- prop_get_plain.
    + exfalso. apply Hnin'. by apply list_elem_of_further.
    + apply elem_of_cons in Hin' as [->|?]; [|done].
      apply backfill_step_same.
    + apply backfill_step_other. intros ->. apply Hnin', list_elem_of_here.
Qed.

Lemma keys_of_lookup (k : string) : k ∈ keys_of D <-> is_Some (D !! k).
Proof.
  unfold keys_of. rewrite list_elem_of_fmap. split.
  - intros ([k' d] & -> & Hin). apply elem_of_map_to_list in Hin. eauto.
  - intros [d E]. exists (k, d). split; [done|].
    by apply elem_of_map_to_list.
Qed.

(** What the backfill leaves under each key. *)
Lemma backfilled_lookup (r : obj) (k : string) :
  backfilled D r !! k =
  match r !! k, D !! k with
  | Some VUndefined, Some d => Some d
  | Some v, _ => Some v
  | None, Some d => match inherited k with Some _ => None | None => Some d end
  | None, None => None
  end.
Proof.
  unfold backfilled. rewrite !lookup_union, !map_lookup_filter.
  destruct (r !! k) as [v|] eqn:Er; destruct (D !! k) as [d|] eqn:Ed; simpl;
    repeat case_guard; simpl in *;
    repeat match goal with
           | H : _ \/ _ |- _ => destruct H as [[? ?]|?]
           | H : ~ (_ \/ _) |- _ => apply Decidable.not_or in H as [? ?]
           | H : ~ ?v <> VUndefined |- _ => apply dec_stable in H; subst v
           end;
    try congruence;
    try (destruct (inherited k) eqn:?); try (destruct v);
    try (done || congruence);
    try (exfalso; eauto).
Qed.

(** The loop over the keys of the defaults, in whatever order they are
    visited. *)
Lemma backfill_loop_keys (l : list string) (r : obj) :
  l ≡ₚ keys_of D ->
  backfill_loop (plain D) l (plain r) = Returned (plain (backfilled D r)).
Proof.
  intros Hl. rewrite backfill_loop_plain. do 2 f_equal.
  apply map_eq. intros k.
  rewrite backfill_fold_lookup
    by (rewrite Hl; apply NoDup_fst_map_to_list).
  rewrite backfilled_lookup, !prop_get_plain.
  destruct (decide (k ∈ l)) as [Hin|Hnin].
  - rewrite Hl in Hin. apply keys_of_lookup in Hin as [d Ed]. rewrite Ed.
    destruct (r !! k) as [v|]; [by destruct v|].
    destruct (inherited k) as [v|] eqn:Ei; [|done].
    simpl. by rewrite (inherited_defined k v).
  - destruct (D !! k) as [d|] eqn:Ed.
    + exfalso. apply Hnin. rewrite Hl. apply keys_of_lookup. eauto.
    + by destruct (r !! k) as [[]|].
Qed.

Lemma backfill_run (r : obj) :
  backfill D r = Returned (plain (backfilled D r)).
Proof. by apply backfill_loop_keys. Qed.

End Backfill.

Lemma backfilled_idemp (D r : obj) :
  backfilled D (backfilled D r) = backfilled D r.
Proof.
  apply map_eq. intros k. rewrite (backfilled_lookup D (backfilled D r)).
  rewrite backfilled_lookup.
  destruct (r !! k) as [v|]; destruct (D !! k) as [d|];
    try (destruct (inherited k)); try (destruct v); try (destruct d); done.
Qed.

Lemma loadSettingsValues_run {realm : Realm} {S : Type} `{Storage S}
      (st : state S) :
  loadSettingsValues st =
  let '(r, s) := getValue ("re621." +:+ settingsTag (this st))
                          (getDefaultSettings (this st)) (storage st) in
  let st' := State (this st) s (hotkey_table st) (pathname st) in
  match r with
  | Returned stored =>
      (Returned (plain (backfilled (getDefaultSettings (this st)) stored)), st')
  | Threw e => (Threw e, st')
  | Hung => (Hung, st')
  end.
Proof.
  unfold loadSettingsValues, bind, self, XM_getValue, reading.
  destruct (getValue _ _ _) as [[stored|e|] s]; try reflexivity.
  simpl. by rewrite backfill_run.
Qed.

(** C2.  What the default backfill done on load does, and where it departs
    from the claim.  The loop ends and leaves a plain record, the same in
    whatever order the keys of the defaults are visited; a second pass
    changes nothing; a stored key that the defaults do not have keeps its
    stored value; every key of the stored record is still there afterwards;
    the record a load produces is the backfill of what the storage returned.
    A default key that the stored record does not have is added with the
    default's value only when [Object.prototype] does not define the name:
    the test [result[key] === undefined] reads through the prototype chain,
    so for a name such as [toString] it finds the inherited function and the
    default is not added, where the claim, like the comment above the loop,
    has every missing default added.  The last part is the loop run on the
    defaults [{enabled: true, toString: "d"}] and the stored record
    [{enabled: false}]: the result is the stored record, and the setting
    [toString] reads as the built-in function. *)
Theorem backfill_skips_inherited_names :
  forall realm : Realm,
  (forall D S0 : obj, backfill D S0 = Returned (plain (backfilled D S0)))
  /\ (forall (D S0 : obj) (visited : list string),
         visited ≡ₚ keys_of D ->
         backfill_loop (plain D) visited (plain S0) = backfill D S0)
  /\ (forall D S0 : obj, backfill D (backfilled D S0) = backfill D S0)
  /\ (forall (D S0 : obj) (k : string),
         D !! k = None -> backfilled D S0 !! k = S0 !! k)
  /\ (forall (D S0 : obj) (k : string) (d : value),
         D !! k = Some d -> S0 !! k = None ->
         backfilled D S0 !! k
         = match inherited k with Some _ => None | None => Some d end)
  /\ (forall (D S0 : obj) (k : string),
         is_Some (S0 !! k) -> is_Some (backfilled D S0 !! k))
  /\ (forall (B : Type) (backend : Storage B) (st : state B)
             (stored : obj) (s : B),
         getValue ("re621." +:+ settingsTag (this st))
                  (getDefaultSettings (this st)) (storage st)
         = (Returned stored, s) ->
         (loadSettingsValues st).1
         = backfill (getDefaultSettings (this st)) stored)
  /\ (let D : obj := {[ "enabled" := VBool true; "toString" := VStr "d" ]} in
      let S0 : obj := {[ "enabled" := VBool false ]} in
      D !! "toString" = Some (VStr "d")
      /\ S0 !! "toString" = None
      /\ backfill D S0 = Returned (plain S0)
      /\ prop_get (plain S0) "toString" = VRef 9).
Proof.
  intros realm.
  split; [exact backfill_run|].
  split; [intros D S0 l Hl; by rewrite backfill_run, backfill_loop_keys|].
  split; [intros D S0; by rewrite !backfill_run, backfilled_idemp|].
  split; [intros D S0 k E; rewrite backfilled_lookup, E; by destruct (S0 !! k) as [[]|]|].
  split; [intros D S0 k d E E'; by rewrite backfilled_lookup, E, E'|].
  split.
  { intros D S0 k [v E]. rewrite backfilled_lookup, E.
    destruct v, (D !! k); eauto. }
  split.
  { intros B backend st stored s E.
    rewrite loadSettingsValues_run, E, backfill_run. reflexivity. }
  repeat split; vm_compute; reflexivity.
Qed.

Lemma backfill_skips_inherited_names_witness :
  let realm := empty_objects in
  let D : obj := {[ "enabled" := VBool true; "zoom" := VBool true;
                    "constructor" := VNum 3 ]} in
  let S0 : obj := {[ "enabled" := VBool false; "legacy" := VNum 7 ]} in
  backfilled D S0 !! "legacy" = Some (VNum 7)
  /\ backfilled D S0 !! "zoom" = Some (VBool true)
  /\ backfilled D S0 !! "constructor" = None
  /\ is_Some (backfilled D S0 !! "enabled")
  /\ (loadSettingsValues
        (State (constructor "Thumbs" D None None None)
               {| cells := {[ "re621.Thumbs" := S0 ]}; condition := Healthy |}
               [] "/posts")).1
     = backfill D S0.
Proof.
  intros realm D S0.
  destruct (backfill_skips_inherited_names realm)
    as (_ & _ & _ & Hkeep & Hadd & Hstay & Hload & _).
  split. { rewrite Hkeep; vm_compute; reflexivity. }
  split. { rewrite (Hadd D S0 "zoom" (VBool true)); vm_compute; reflexivity. }
  split. { rewrite (Hadd D S0 "constructor" (VNum 3)); vm_compute; reflexivity. }
  split. { apply Hstay; exists (VBool false); vm_compute; reflexivity. }
  apply (Hload kvstore kvstore_storage
      (State (constructor "Thumbs" D None None None)
               {| cells := {[ "re621.Thumbs" := S0 ]}; condition := Healthy |}
               [] "/posts") S0
               {| cells := {[ "re621.Thumbs" := S0 ]}; condition := Healthy |}).
  vm_compute; reflexivity.
Defined.

(** ** What a method leaves alone *)

Section Frame.

Context {realm : Realm} {S : Type} `{Storage S}.
Variable R : RE6Module -> RE6Module -> Prop.
Hypothesis R_refl : forall m, R m m.
Hypothesis R_trans : forall m1 m2 m3, R m1 m2 -> R m2 m3 -> R m1 m3.
Hypothesis R_settings : forall s m, R m (with_settings (Some s) m).
Hypothesis R_hotkeys : forall h m, R m (with_hotkeys h m).

Lemma keeps_ret {A} (a : A) : keeps R (@ret S A a).
Proof. intros st. apply R_refl. Qed.

Lemma keeps_throw {A} (e : error) : keeps R (@throw S A e).
Proof. intros st. apply R_refl. Qed.

Lemma keeps_self : keeps R (@self S).
Proof. intros st. apply R_refl. Qed.

Lemma keeps_reading {A} (f : RE6Module -> outcome A) :
  keeps R (@reading S A f).
Proof. intros st. apply R_refl. Qed.

Lemma keeps_bind {A B} (c : M S A) (k : A -> M S B) :
  keeps R c -> (forall a, keeps R (k a)) -> keeps R (bind c k).
Proof.
  intros Hc Hk st. unfold bind. specialize (Hc st).
  destruct (c st) as [[a|e|] st']; simpl in *; [|done|done].
  eapply R_trans; [exact Hc | apply Hk].
Qed.

Lemma keeps_forEach {A} (l : list A) (body : A -> M S unit) :
  (forall x, keeps R (body x)) -> keeps R (forEach l body).
Proof.
  intros Hb. induction l as [|x l IH]; simpl.
  - apply keeps_ret.
  - apply keeps_bind; [apply Hb | intros _; exact IH].
Qed.

Lemma keeps_promise_of {A} (c : M S A) :
  keeps R c -> keeps R (promise_of c).
Proof.
  intros Hc st. unfold promise_of. specialize (Hc st).
  destruct (c st) as [[a|e|] st']; exact Hc.
Qed.

Lemma keeps_update (f : RE6Module -> RE6Module) :
  (forall m, R m (f m)) -> keeps R (@update S f).
Proof. intros Hf st. simpl. apply Hf. Qed.

Lemma keeps_getValue (name : string) (d : obj) : keeps R (XM_getValue name d).
Proof.
  intros st. unfold XM_getValue. destruct (getValue _ _ _). apply R_refl.
Qed.

Lemma keeps_setValue (name : string) (v : obj) : keeps R (XM_setValue name v).
Proof.
  intros st. unfold XM_setValue. destruct (setValue _ _ _). apply R_refl.
Qed.

Lemma keeps_deleteValue (name : string) : keeps R (XM_deleteValue name).
Proof.
  intros st. unfold XM_deleteValue. destruct (deleteValue _ _). apply R_refl.
Qed.

Lemma keeps_register key f e sel :
  keeps R (Hotkeys_register key f e sel : M S unit).
Proof. intros st. apply R_refl. Qed.

Lemma keeps_assign (key : string) (v : value) :
  keeps R (assign key v : M S unit).
Proof.
  intros st. unfold assign. destruct (settings (this st)); [|apply R_refl].
  destruct (prop_set _ _ _); simpl; [apply R_settings | apply R_refl ..].
Qed.

Ltac frame :=
  repeat first
    [ apply keeps_ret | apply keeps_throw | apply keeps_self
    | apply keeps_reading | apply keeps_getValue | apply keeps_setValue
    | apply keeps_deleteValue | apply keeps_register | apply keeps_assign
    | apply keeps_update; intros ?; apply R_settings
    | apply keeps_update; intros ?; apply R_hotkeys
    | apply keeps_promise_of
    | apply keeps_forEach; intros ?
    | apply keeps_bind; [|intros ?]
    | match goal with
      | |- keeps _ (match ?x with _ => _ end) => destruct x
      end ].

Lemma keeps_loadSettingsValues : keeps R loadSettingsValues.
Proof. unfold loadSettingsValues. frame. Qed.

Lemma keeps_loadSettingsCache : keeps R loadSettingsCache.
Proof.
  unfold loadSettingsCache.
  apply keeps_bind; [apply keeps_loadSettingsValues | intros ?]. frame.
Qed.

Lemma keeps_saveSettingsCache : keeps R saveSettingsCache.
Proof. unfold saveSettingsCache. frame. Qed.

Lemma keeps_fetchSettings p fresh : keeps R (fetchSettings p fresh).
Proof.
  unfold fetchSettings. destruct fresh; [|frame].
  apply keeps_promise_of.
  apply keeps_bind; [apply keeps_loadSettingsCache | intros ?]. frame.
Qed.

Lemma keeps_fetchSettingsGently p : keeps R (fetchSettingsGently p).
Proof.
  unfold fetchSettingsGently.
  apply keeps_bind; [apply keeps_loadSettingsValues | intros ?]. frame.
Qed.

(** The part of [pushSettings] that follows the reload. *)
Lemma keeps_merge_save (p : pushed) :
  keeps R (match p with
           | Pair property v => assign property v
           | Record_ property =>
               forEach property.*1
                       (fun key => assign key (own_get property key))
           end ;;;
           saveSettingsCache).
Proof.
  apply keeps_bind; [destruct p; frame | intros ?].
  apply keeps_saveSettingsCache.
Qed.

Lemma keeps_pushSettings p : keeps R (pushSettings p).
Proof.
  unfold pushSettings.
  apply keeps_bind; [apply keeps_loadSettingsCache | intros ?].
  apply keeps_merge_save.
Qed.

Lemma keeps_clearSettings : keeps R clearSettings.
Proof.
  unfold clearSettings. apply keeps_bind; [apply keeps_self | intros ?].
  apply keeps_bind; [apply keeps_deleteValue | intros ?].
  apply keeps_loadSettingsCache.
Qed.

Lemma keeps_getSavedSettings : keeps R getSavedSettings.
Proof. unfold getSavedSettings. frame. Qed.

Lemma keeps_resetHotkeys : keeps R resetHotkeys.
Proof.
  unfold resetHotkeys.
  apply keeps_bind; [apply keeps_loadSettingsCache | intros ?].
  apply keeps_bind; [intros st; apply R_refl | intros enabled].
  apply keeps_bind; [apply keeps_self | intros m].
  apply keeps_forEach. intros value.
  apply keeps_bind; [apply keeps_reading | intros combos].
  apply keeps_forEach. intros key.
  destruct (String.eqb key ""); [apply keeps_ret|].
  destruct enabled; apply keeps_register.
Qed.

Lemma keeps_registerHotkeys more : keeps R (registerHotkeys more).
Proof.
  unfold registerHotkeys. apply keeps_bind; [|intros ?].
  - apply keeps_update. intros m. apply R_hotkeys.
  - intros st. simpl. apply keeps_resetHotkeys.
Qed.

Lemma keeps_prepare :
  (forall e m, R m (with_enabled e m)) -> keeps R (prepare : M S unit).
Proof.
  intros He. unfold prepare.
  apply keeps_bind; [apply keeps_loadSettingsCache | intros _].
  apply keeps_bind; [apply keeps_reading | intros v].
  apply keeps_update. intros m. apply He.
Qed.

(** Every call of a method that writes [this] through [settings] or
    [hotkeys] only keeps [R]. *)
Lemma after_keeps (c : call) (st : state S) :
  match c with
  | Prepare | Create | Destroy | SetEnabled _ => True
  | _ => R (this st) (this (after c st))
  end.
Proof.
  destruct c; simpl; try done; try apply R_refl.
  - apply keeps_fetchSettings.
  - apply keeps_fetchSettingsGently.
  - apply keeps_pushSettings.
  - apply keeps_clearSettings.
  - apply keeps_loadSettingsCache.
  - apply keeps_loadSettingsValues.
  - apply keeps_saveSettingsCache.
  - apply keeps_loadSettingsCache.
  - apply keeps_getSavedSettings.
  - apply keeps_resetHotkeys.
  - apply keeps_registerHotkeys.
Qed.

End Frame.

Lemma after_initialized {realm : Realm} {S : Type} `{Storage S} (c : call) (st : state S) :
  c <> Create -> c <> Destroy ->
  initialized (this (after c st)) = initialized (this st).
Proof.
  intros Hc Hd.
  assert (Ht : forall m1 m2 m3 : RE6Module,
             same_field initialized m1 m2 -> same_field initialized m2 m3 ->
             same_field initialized m1 m3).
  { unfold same_field. intros m1 m2 m3 E1 E2. by rewrite E2. }
  pose proof (after_keeps (same_field initialized) (fun _ => eq_refl) Ht
                          (fun _ _ => eq_refl) (fun _ _ => eq_refl) c st) as Hf.
  destruct c; try done.
  apply (keeps_prepare (same_field initialized) (fun _ => eq_refl) Ht
                       (fun _ _ => eq_refl) (fun _ _ => eq_refl)).
Qed.

Lemma after_enabled {realm : Realm} {S : Type} `{Storage S} (c : call) (st : state S) :
  c <> Prepare -> (forall b, c <> SetEnabled b) ->
  enabled (this (after c st)) = enabled (this st).
Proof.
  intros Hp Hs.
  assert (Ht : forall m1 m2 m3 : RE6Module,
             same_field enabled m1 m2 -> same_field enabled m2 m3 ->
             same_field enabled m1 m3).
  { unfold same_field. intros m1 m2 m3 E1 E2. by rewrite E2. }
  pose proof (after_keeps (same_field enabled) (fun _ => eq_refl) Ht
                          (fun _ _ => eq_refl) (fun _ _ => eq_refl) c st) as Hf.
  destruct c; try done.
  exfalso. by eapply Hs.
Qed.

Lemma still_loaded_refl (m : RE6Module) : still_loaded m m.
Proof. intros ?. done. Qed.

Lemma still_loaded_trans (m1 m2 m3 : RE6Module) :
  still_loaded m1 m2 -> still_loaded m2 m3 -> still_loaded m1 m3.
Proof. unfold still_loaded. auto. Qed.

Lemma still_loaded_settings (s : object) (m : RE6Module) :
  still_loaded m (with_settings (Some s) m).
Proof. intros _. simpl. eauto. Qed.

Lemma still_loaded_hotkeys (h : list Hotkey) (m : RE6Module) :
  still_loaded m (with_hotkeys h m).
Proof. intros E. exact E. Qed.

Lemma after_still_loaded {realm : Realm} {S : Type} `{Storage S}
      (c : call) (st : state S) :
  is_Some (settings (this st)) -> is_Some (settings (this (after c st))).
Proof.
  pose proof (after_keeps still_loaded still_loaded_refl still_loaded_trans
                          still_loaded_settings still_loaded_hotkeys c st) as Hf.
  destruct c; try exact Hf; try done.
  apply (keeps_prepare still_loaded still_loaded_refl still_loaded_trans
                       still_loaded_settings).
  intros e m E. exact E.
Qed.

Lemma canInitialize_true (m : RE6Module) (p : string) :
  canInitialize m p = VBool true <->
  initialized m = false /\ pageMatchesFilter m p = true /\ enabled m = VBool true.
Proof.
  unfold canInitialize, js_and.
  destruct (initialized m), (pageMatchesFilter m p); simpl;
    try (split; [discriminate | intros (? & ? & ?); discriminate]).
  split; [intros ->; done | intros (_ & _ & ->); done].
Qed.

Lemma canInitialize_initialized (m : RE6Module) (p : string) :
  initialized m = true -> canInitialize m p = VBool false.
Proof. intros E. unfold canInitialize. rewrite E. reflexivity. Qed.

Lemma after_all_initialized {realm : Realm} {S : Type} `{Storage S}
      (cs : list call) (st : state S) :
  Forall (fun c => c <> Destroy) cs ->
  initialized (this st) = true ->
  initialized (this (after_all cs st)) = true.
Proof.
  intros Hcs. revert st. unfold after_all.
  induction Hcs as [|c cs Hc _ IH]; intros st Hi; simpl; [done|].
  apply IH. destruct c; try (rewrite after_initialized; done); done.
Qed.

(** C1.  [canInitialize()] is [true] exactly when the instance is not
    initialized, the page matches the constraint set and the cached enabled
    flag is [true].  Once [create()] has run, [canInitialize()] is [false] on
    every page and after any further calls (changes of the enabled flag and
    of the settings included) as long as [destroy()] is not among them;
    [destroy()] clears the flag again. *)
Theorem canInitialize_gate :
  (forall (m : RE6Module) (p : string),
      canInitialize m p = VBool true <->
      initialized m = false /\ pageMatchesFilter m p = true
      /\ enabled m = VBool true)
  /\ (forall (realm : Realm) (S : Type) (backend : Storage S) (st : state S)
             (cs : list call) (p : string),
         Forall (fun c => c <> Destroy) cs ->
         canInitialize (this (after_all cs (after Create st))) p = VBool false)
  /\ (forall (realm : Realm) (S : Type) (backend : Storage S) (st : state S),
         initialized (this (after Create st)) = true
         /\ initialized (this (after Destroy st)) = false).
Proof.
  split; [exact canInitialize_true|]. split.
  - intros realm S backend st cs p Hcs. apply canInitialize_initialized.
    by apply after_all_initialized.
  - intros realm S backend st. split; reflexivity.
Qed.

Lemma canInitialize_gate_witness :
  let realm := empty_objects in
  let fresh : state kvstore :=
    State (constructor "PostViewer" base_defaults
                       (Some (OnePattern PageDefintion_post)) None None)
          {| cells := ∅; condition := Healthy |} [] "/posts/45/" in
  let prepared := after Prepare fresh in
  canInitialize (this prepared) (pathname prepared) = VBool true
  /\ canInitialize
       (this (after_all [SetEnabled true; PushSettings (Pair "enabled" (VBool true));
                         Prepare; RefreshSettings]
                        (after Create prepared))) "/posts/45/" = VBool false
  /\ canInitialize (this (after Destroy (after Create prepared)))
                   (pathname prepared) = VBool true.
Proof.
  intros realm fresh prepared.
  destruct canInitialize_gate as (Hiff & Hcreated & Hflags).
  split; [apply Hiff; vm_compute; auto|].
  split.
  - apply Hcreated. repeat constructor; discriminate.
  - apply Hiff. vm_compute; auto.
Defined.

Lemma prepare_mirrors {realm : Realm} {S : Type} `{Storage S} (st : state S) :
  (prepare st).1 = Returned tt ->
  settings_get (this (after Prepare st)) "enabled"
  = Returned (enabled (this (after Prepare st))).
Proof.
  simpl. unfold prepare, bind, loadSettingsCache, bind, update, ret, reading.
  rewrite loadSettingsValues_run.
  destruct (getValue _ _ _) as [[stored|e|] s]; simpl; try discriminate.
  intros _. reflexivity.
Qed.

(** C9.  [setEnabled(b)] writes the in-memory enabled field and nothing else:
    the settings record, the storage and the hotkey table are as before;
    [isEnabled()] reads the field and writes nothing.  The field is written
    by [prepare()] (which copies the loaded [enabled] setting) and by
    [setEnabled()] only: every other method, [loadSettingsCache],
    [pushSettings], [clearSettings] and [refreshSettings] among them, leaves
    it as it was.  So after [setEnabled(false)] the field can differ from
    the persisted [enabled] value, also across a [pushSettings], until the
    next [prepare()]. *)
Theorem enabled_flag_frame :
  forall realm : Realm,
  (forall (S : Type) (backend : Storage S) (b : bool) (st : state S),
      after (SetEnabled b) st
      = State (with_enabled (VBool b) (this st)) (storage st)
              (hotkey_table st) (pathname st)
      /\ settings (this (after (SetEnabled b) st)) = settings (this st)
      /\ isEnabled (this (after (SetEnabled b) st)) = VBool b)
  /\ (forall (S : Type) (backend : Storage S) (st : state S),
         after IsEnabled st = st /\ isEnabled (this st) = enabled (this st))
  /\ (forall (S : Type) (backend : Storage S) (c : call) (st : state S),
         c <> Prepare -> (forall b, c <> SetEnabled b) ->
         enabled (this (after c st)) = enabled (this st))
  /\ (forall (S : Type) (backend : Storage S) (st : state S),
         (prepare st).1 = Returned tt ->
         settings_get (this (after Prepare st)) "enabled"
         = Returned (enabled (this (after Prepare st))))
  /\ (exists st : state kvstore,
         let diverged :=
           after_all [Prepare; SetEnabled false;
                      PushSettings (Pair "zoom" (VBool true))] st in
         isEnabled (this diverged) = VBool false
         /\ settings_get (this diverged) "enabled" = Returned (VBool true)
         /\ (stored ← cells (storage diverged) !! "re621.Thumbs";
             stored !! "enabled") = Some (VBool true)
         /\ isEnabled (this (after Prepare diverged)) = VBool true).
Proof.
  intros realm.
  split; [intros S backend b st; split; [|split]; reflexivity|].
  split; [intros S backend st; split; reflexivity|].
  split; [intros S backend c st; apply after_enabled|].
  split; [intros S backend st; apply prepare_mirrors|].
  exists (State (constructor "Thumbs" base_defaults None None None)
                {| cells := ∅; condition := Healthy |} [] "/posts").
  vm_compute. auto.
Qed.

Lemma enabled_flag_frame_witness :
  let realm := empty_objects in
  let st : state kvstore :=
    State (constructor "Thumbs" base_defaults None None None)
          {| cells := ∅; condition := Healthy |} [] "/posts" in
  enabled (this (after ClearSettings (after (SetEnabled false) st)))
  = VBool false
  /\ settings_get (this (after Prepare st)) "enabled"
     = Returned (enabled (this (after Prepare st))).
Proof.
  intros realm st.
  destruct (enabled_flag_frame realm) as (_ & _ & Hframe & Hmirror & _).
  split.
  - rewrite (Hframe kvstore kvstore_storage ClearSettings);
      [reflexivity | discriminate | discriminate].
  - apply (Hmirror kvstore kvstore_storage st). vm_compute. reflexivity.
Defined.

(** ** What the settings methods compute *)

Section Runs.

Context {realm : Realm} {S : Type} `{Storage S}.

(** The state after a storage call that left the backend in [s]. *)
Let moved (st : state S) (s : S) : state S :=
  State (this st) s (hotkey_table st) (pathname st).

(** The state after a load that read [values] and left the backend in [s]. *)
Let loaded (st : state S) (values : object) (s : S) : state S :=
  State (with_settings (Some values) (this st)) s
        (hotkey_table st) (pathname st).

Lemma loadSettingsCache_run (st : state S) :
  loadSettingsCache st =
  let '(r, s) := getValue ("re621." +:+ settingsTag (this st))
                          (getDefaultSettings (this st)) (storage st) in
  match r with
  | Returned stored =>
      (Returned true,
       loaded st (plain (backfilled (getDefaultSettings (this st)) stored)) s)
  | Threw e => (Threw e, moved st s)
  | Hung => (Hung, moved st s)
  end.
Proof.
  unfold loadSettingsCache, bind. rewrite loadSettingsValues_run.
  destruct (getValue _ _ _) as [[stored|e|] s]; reflexivity.
Qed.

Lemma assign_run (key : string) (v : value) (st : state S) (s0 : obj) :
  settings (this st) = Some (plain s0) -> key <> "__proto__" ->
  assign key v st =
  (Returned tt,
   State (with_settings (Some (plain (<[key := v]> s0))) (this st))
         (storage st) (hotkey_table st) (pathname st)).
Proof.
  intros E Hk. unfold assign. rewrite E, prop_set_plain by done. reflexivity.
Qed.

Lemma assign_all_run (property : list (string * value)) (l : list string)
      (st : state S) (s0 : obj) :
  settings (this st) = Some (plain s0) -> "__proto__" ∉ l ->
  forEach l (fun key => assign key (own_get property key)) st =
  (Returned tt,
   State (with_settings
            (Some (plain (foldl (fun s key => <[key := own_get property key]> s)
                                s0 l)))
            (this st))
         (storage st) (hotkey_table st) (pathname st)).
Proof.
  revert st s0. induction l as [|key l IH]; intros st s0 E Hl; simpl.
  - unfold ret. destruct st as [m s t p]. destruct m. simpl in *.
    by rewrite E.
  - apply not_elem_of_cons in Hl as [Hk Hl].
    unfold bind. rewrite (assign_run key _ st s0) by done.
    erewrite IH by (reflexivity || exact Hl). reflexivity.
Qed.

Lemma assign_all_lookup (property : list (string * value)) (s0 : obj)
      (l : list string) (k : string) :
  foldl (fun s key => <[key := own_get property key]> s) s0 l !! k =
  if decide (k ∈ l) then Some (own_get property k) else s0 !! k.
Proof.
  revert s0. induction l as [|a l IH]; intros s0; cbn [foldl].
  - destruct (decide (k ∈ [])) as [Hin|_]; [|done].
    by apply not_elem_of_nil in Hin.
  - rewrite IH.
    destruct (decide (k ∈ l)) as [Hin|Hnin];
      destruct (decide (k ∈ a :: l)) as [Hin'|Hnin']; try done.
    + exfalso. apply Hnin'. by apply list_elem_of_further.
    + apply elem_of_cons in Hin' as [->|?]; [|done].
      by rewrite lookup_insert_eq.
    + rewrite lookup_insert_ne; [done|].
      intros ->. apply Hnin', list_elem_of_here.
Qed.

Lemma assign_all_union (property : list (string * value)) (s0 : obj) :
  foldl (fun s key => <[key := own_get property key]> s) s0 property.*1
  = list_to_map property ∪ s0.
Proof.
  apply map_eq. intros k. rewrite assign_all_lookup, own_get_lookup.
  destruct (decide (k ∈ property.*1)) as [Hin|Hnin].
  - destruct ((list_to_map property : obj) !! k) as [v|] eqn:E.
    + symmetry. by apply lookup_union_Some_l.
    + by apply not_elem_of_list_to_map in E.
  - apply (not_elem_of_list_to_map (M := gmap string)) in Hnin.
    symmetry. by rewrite lookup_union_r.
Qed.

Lemma pushSettings_run (p : pushed) (st : state S) :
  proto_free p ->
  pushSettings p st =
  let key := "re621." +:+ settingsTag (this st) in
  let '(r, s) := getValue key (getDefaultSettings (this st)) (storage st) in
  match r with
  | Returned stored =>
      let record := merged p (backfilled (getDefaultSettings (this st)) stored) in
      let '(r', s') := setValue key record s in
      (r', loaded st (plain record) s')
  | Threw e => (Threw e, moved st s)
  | Hung => (Hung, moved st s)
  end.
Proof.
  intros Hp.
  unfold pushSettings, bind at 1. rewrite loadSettingsCache_run. simpl.
  destruct (getValue _ _ _) as [[stored|e|] s]; try reflexivity.
  unfold bind at 1.
  set (values := backfilled _ stored).
  assert (Hmerge :
    match p with
    | Pair property v => assign property v
    | Record_ property =>
        forEach property.*1 (fun key => assign key (own_get property key))
    end (loaded st (plain values) s)
    = (Returned tt, loaded st (plain (merged p values)) s)).
  { destruct p as [property v|property]; simpl in *.
    - by erewrite assign_run by (reflexivity || done).
    - erewrite assign_all_run by (reflexivity || done).
      rewrite assign_all_union. reflexivity. }
  rewrite Hmerge. unfold saveSettingsCache, bind, self, XM_setValue. simpl.
  destruct (setValue _ _ _) as [r' s']. reflexivity.
Qed.

Lemma clearSettings_run (st : state S) :
  clearSettings st =
  let key := "re621." +:+ settingsTag (this st) in
  let '(r, s) := deleteValue key (storage st) in
  match r with
  | Returned _ => loadSettingsCache (moved st s)
  | Threw e => (Threw e, moved st s)
  | Hung => (Hung, moved st s)
  end.
Proof.
  unfold clearSettings, bind, self, XM_deleteValue. simpl.
  destruct (deleteValue _ _) as [[b|e|] s]; reflexivity.
Qed.

End Runs.

Lemma merged_pushes (p : pushed) (s : obj) (k : string) (v : value) :
  pushes p k v -> merged p s !! k = Some v.
Proof.
  destruct p as [property v'|property]; simpl.
  - intros [-> ->]. apply lookup_insert_eq.
  - intros E. by apply lookup_union_Some_l.
Qed.

(** When [pushSettings] settles with a boolean, whichever it is, the pushed
    values are in the cache. *)
Lemma pushSettings_cached {realm : Realm} {S : Type} `{Storage S}
      (p : pushed) (st : state S) (b : bool) (k : string) (v : value) :
  proto_free p ->
  (pushSettings p st).1 = Returned b -> pushes p k v ->
  fetchSettings_cached (this (after (PushSettings p) st)) (Name k)
  = Returned (Single v).
Proof.
  intros Hf. simpl. rewrite pushSettings_run by done. simpl.
  destruct (getValue _ _ _) as [[stored|e|] s]; simpl; try discriminate.
  destruct (setValue _ _ _) as [r' s']. simpl. intros _ Hp.
  unfold fetchSettings_cached, settings_get. simpl.
  by rewrite (prop_get_own _ _ v) by (by apply merged_pushes).
Qed.

Lemma backfilled_self (D : obj) : backfilled D D = D.
Proof.
  apply map_eq. intros k. rewrite backfilled_lookup.
  by destruct (D !! k) as [[]|].
Qed.

(** *** On the key/value store *)

Lemma kv_pushSettings_healthy {realm : Realm} (p : pushed) (st : state kvstore) :
  condition (storage st) = Healthy -> proto_free p ->
  pushSettings p st =
  let key := "re621." +:+ settingsTag (this st) in
  let D := getDefaultSettings (this st) in
  let record := merged p (backfilled D (default D (cells (storage st) !! key))) in
  (Returned true,
   State (with_settings (Some (plain record)) (this st))
         {| cells := <[key := record]> (cells (storage st));
            condition := Healthy |}
         (hotkey_table st) (pathname st)).
Proof.
  intros E Hp. rewrite pushSettings_run by done.
  destruct st as [m [c h] t pth]. simpl in *. subst h. reflexivity.
Qed.

Lemma kv_pushSettings_failing {realm : Realm} (p : pushed) (st : state kvstore) :
  condition (storage st) = Failing -> proto_free p ->
  pushSettings p st =
  let key := "re621." +:+ settingsTag (this st) in
  let D := getDefaultSettings (this st) in
  let record := merged p (backfilled D (default D (cells (storage st) !! key))) in
  (Returned false,
   State (with_settings (Some (plain record)) (this st)) (storage st)
         (hotkey_table st) (pathname st)).
Proof.
  intros E Hp. rewrite pushSettings_run by done.
  destruct st as [m [c h] t pth]. simpl in *. subst h. reflexivity.
Qed.




(** Closes [proto_free p] for a [p] given by its keys. *)
Ltac no_proto :=
  simpl; try discriminate;
  repeat (apply not_elem_of_cons; split; [discriminate|]);
  apply not_elem_of_nil.





(** C8.  What [pushSettings] leaves when the write fails, and where it
    departs from the claim.  Whatever the backend, if [pushSettings]
    resolves to [false] and [__proto__] is not among the pushed keys, a
    non-fresh [fetchSettings] of a pushed key returns the pushed value.  On
    the key/value store that refuses writes, such a [pushSettings] resolves
    to [false], the store is as it was, the cache holds the pushed value,
    and a reload brings the cache back to what the store has.  For the key
    [__proto__] the pushed value is not merged: on the store that refuses
    writes, [pushSettings("__proto__", 1)] resolves to [false], the cache
    is the record the call loaded, and the fetch of [__proto__] is
    [Object.prototype], where the claim, like the method's description
    ("will set the value of the specified property"), has the pushed value
    observable. *)
Theorem pushSettings_cache_ahead :
  forall realm : Realm,
  (forall (S : Type) (backend : Storage S) (st : state S)
          (p : pushed) (x : string) (v : value),
      proto_free p ->
      (pushSettings p st).1 = Returned false -> pushes p x v ->
      let st' := after (PushSettings p) st in
      fetchSettings (Name x) false st' = (Returned (Single v), st'))
  /\ (forall (st : state kvstore) (p : pushed) (x : string) (v : value),
         condition (storage st) = Failing -> proto_free p -> pushes p x v ->
         let key := "re621." +:+ settingsTag (this st) in
         let D := getDefaultSettings (this st) in
         let st' := after (PushSettings p) st in
         (pushSettings p st).1 = Returned false
         /\ storage st' = storage st
         /\ fetchSettings (Name x) false st' = (Returned (Single v), st')
         /\ settings (this (after RefreshSettings st'))
            = Some (plain (backfilled D (default D (cells (storage st) !! key)))))
  /\ (let D : obj := {[ "enabled" := VBool true; "zoom" := VBool true ]} in
      let st : state kvstore :=
        State (constructor "Thumbs" D None None None)
              {| cells := {[ "re621.Thumbs" := D ]}; condition := Failing |}
              [] "/posts" in
      let p := Pair "__proto__" (VNum 1) in
      let st' := after (PushSettings p) st in
      pushes p "__proto__" (VNum 1)
      /\ (pushSettings p st).1 = Returned false
      /\ settings (this st') = Some (plain D)
      /\ fetchSettings (Name "__proto__") false st'
         = (Returned (Single (VRef Object_prototype)), st')).
Proof.
  intros realm. split.
  { intros S backend st p x v Hf Hr Hp st'. unfold fetchSettings, reading.
    subst st'. by rewrite (pushSettings_cached p st false x v Hf Hr Hp). }
  split.
  { intros st p x v Hf Hfree Hp key D st'. subst st'. simpl.
    rewrite (kv_pushSettings_failing p st Hf Hfree). simpl.
    split; [reflexivity|]. split; [reflexivity|]. split.
    - unfold fetchSettings, reading, fetchSettings_cached, settings_get.
      simpl. by rewrite (prop_get_own _ _ v) by (by apply merged_pushes).
    - unfold refreshSettings. rewrite loadSettingsCache_run. simpl.
      rewrite Hf. reflexivity. }
  repeat split; vm_compute; reflexivity.
Qed.

Lemma pushSettings_cache_ahead_witness :
  let realm := empty_objects in
  let st : state kvstore :=
    State (constructor "Thumbs"
                       {[ "enabled" := VBool true; "zoom" := VBool true ]}
                       None None None)
          {| cells := {[ "re621.Thumbs" :=
                           {[ "enabled" := VBool true; "zoom" := VBool true ]} ]};
             condition := Failing |} [] "/posts" in
  let st' := after (PushSettings (Pair "zoom" (VBool false))) st in
  (pushSettings (Pair "zoom" (VBool false)) st).1 = Returned false
  /\ storage st' = storage st
  /\ fetchSettings (Name "zoom") false st' = (Returned (Single (VBool false)), st')
  /\ settings (this (after RefreshSettings st'))
     = Some (plain (backfilled
                      {[ "enabled" := VBool true; "zoom" := VBool true ]}
                      {[ "enabled" := VBool true; "zoom" := VBool true ]})).
Proof.
  intros realm st st'.
  destruct (pushSettings_cache_ahead realm) as (_ & Hkv & _).
  apply (Hkv st (Pair "zoom" (VBool false)) "zoom" (VBool false)).
  - reflexivity.
  - discriminate.
  - split; reflexivity.
Defined.

(** C4 (what the code does).  [clearSettings()] never resolves to [false],
    whatever the backend.  When the store refuses the delete,
    [clearSettings()] resolves to [true] and the record is still stored;
    when the store is unreachable, [clearSettings()] rejects with the
    storage's error. *)
Theorem clearSettings_hides_failed_delete :
  forall realm : Realm,
  (forall (S : Type) (backend : Storage S) (st : state S),
      (clearSettings st).1 <> Returned false)
  /\ (let st : state kvstore :=
        State (constructor "Thumbs" base_defaults None None None)
              {| cells := {[ "re621.Thumbs" := {[ "enabled" := VBool false ]} ]};
                 condition := Failing |} [] "/posts" in
      (clearSettings st).1 = Returned true
      /\ storage (after ClearSettings st) = storage st
      /\ fetchSettings_cached (this (after ClearSettings st)) (Name "enabled")
         = Returned (Single (VBool false)))
  /\ (let st : state kvstore :=
        State (constructor "Thumbs" base_defaults None None None)
              {| cells := {[ "re621.Thumbs" := {[ "enabled" := VBool false ]} ]};
                 condition := Unavailable |} [] "/posts" in
      (clearSettings st).1 = Threw StorageError).
Proof.
  intros realm. split.
  { intros S backend st. rewrite clearSettings_run. simpl.
    destruct (deleteValue _ _) as [[b|e|] s]; simpl; try discriminate.
    rewrite loadSettingsCache_run. simpl.
    destruct (getValue _ _ _) as [[stored|e|] s']; discriminate. }
  split; vm_compute; auto.
Qed.

(** ** What [resetHotkeys] registers *)

Section Registrations.

Context {realm : Realm} {S : Type} `{Storage S}.

Let registered (st : state S) (made : list registration) : state S :=
  State (this st) (storage st) (rev made ++ hotkey_table st) (pathname st).

Lemma combos_run (page_match : bool) (value : Hotkey) (combos : list string)
      (st : state S) :
  forEach combos (fun key =>
    if String.eqb key "" then ret tt
    else if page_match
         then Hotkeys_register key (fnct value) (element value) (selector value)
         else Hotkeys_register key Inert None None) st
  = (Returned tt, registered st (binding_registrations page_match value combos)).
Proof.
  revert st. induction combos as [|key combos IH]; intros st.
  - destruct st; reflexivity.
  - cbn [forEach]. unfold bind at 1, binding_registrations.
    rewrite filter_cons.
    destruct (String.eqb_spec key "") as [->|Hne].
    + rewrite decide_False by (intros Hn; by apply Hn).
      unfold ret at 1. apply IH.
    + rewrite decide_True by done.
      assert (Hreg :
        (if page_match
         then Hotkeys_register key (fnct value) (element value) (selector value)
         else Hotkeys_register key Inert None None) st
        = (Returned tt,
           State (this st) (storage st)
                 (binding_registration page_match value key :: hotkey_table st)
                 (pathname st))).
      { destruct page_match; reflexivity. }
      rewrite Hreg, IH. unfold registered, binding_registrations. simpl.
      rewrite <- app_assoc. reflexivity.
Qed.

Lemma bindings_run (page_match : bool) (values : object)
      (bindings : list Hotkey) (st : state S) :
  settings (this st) = Some values ->
  forEach bindings (fun value =>
    let* combos := reading (fun m =>
                match settings_get m (keys value) with
                | Returned v => split_value v
                | Threw e => Threw e
                | Hung => Hung
                end) in
    forEach combos (fun key =>
      if String.eqb key "" then ret tt
      else if page_match
           then Hotkeys_register key (fnct value) (element value) (selector value)
           else Hotkeys_register key Inert None None)) st
  = let '(r, made) := registrations_of page_match values bindings in
    (r, registered st made).
Proof.
  revert st. induction bindings as [|value bindings IH]; intros st E.
  - destruct st; reflexivity.
  - cbn [forEach registrations_of]. unfold bind at 1, bind at 1, reading.
    unfold settings_get. rewrite E.
    destruct (split_value (prop_get values (keys value))) as [combos|e|].
    + rewrite combos_run. rewrite IH by exact E.
      destruct (registrations_of page_match values bindings) as [r later].
      unfold registered. simpl. rewrite rev_app_distr, <- app_assoc.
      reflexivity.
    + destruct st; reflexivity.
    + destruct st; reflexivity.
Qed.

Lemma resetHotkeys_run (st : state S) :
  resetHotkeys st =
  let D := getDefaultSettings (this st) in
  let '(r, s) := getValue ("re621." +:+ settingsTag (this st)) D (storage st) in
  match r with
  | Returned stored =>
      let values := plain (backfilled D stored) in
      let '(r', made) :=
        registrations_of (pageMatchesFilter (this st) (pathname st))
                         values (hotkeys (this st)) in
      (r', State (with_settings (Some values) (this st)) s
                 (rev made ++ hotkey_table st) (pathname st))
  | Threw e => (Threw e, State (this st) s (hotkey_table st) (pathname st))
  | Hung => (Hung, State (this st) s (hotkey_table st) (pathname st))
  end.
Proof.
  unfold resetHotkeys, bind at 1. rewrite loadSettingsCache_run. simpl.
  destruct (getValue _ _ _) as [[stored|e|] s]; try reflexivity.
  unfold bind at 1, bind at 1, self. simpl.
  erewrite bindings_run by reflexivity.
  destruct (registrations_of _ _ _) as [r' made]. reflexivity.
Qed.

End Registrations.

Lemma reg_key_binding (page_match : bool) (value : Hotkey) (key : string) :
  reg_key (binding_registration page_match value key) = key.
Proof. by destruct page_match. Qed.

Lemma binding_registrations_elem (page_match : bool) (value : Hotkey)
      (combos : list string) (r : registration) :
  r ∈ binding_registrations page_match value combos <->
  exists key, r = binding_registration page_match value key
              /\ key ∈ combos /\ key <> "".
Proof.
  unfold binding_registrations. rewrite list_elem_of_fmap.
  split; intros (key & -> & Hk); exists key; (split; [done|]).
  - by apply list_elem_of_filter in Hk as [? ?].
  - destruct Hk. by apply list_elem_of_filter.
Qed.

Lemma registrations_of_keys {realm : Realm} (page_match : bool)
      (values : object) (bindings : list Hotkey) :
  Forall (fun r => reg_key r <> "")
         (registrations_of page_match values bindings).2.
Proof.
  induction bindings as [|value bindings IH]; simpl; [constructor|].
  destruct (split_value _) as [combos|e|]; simpl; try constructor.
  destruct (registrations_of page_match values bindings) as [r later].
  simpl in *. apply Forall_app. split; [|exact IH].
  apply Forall_forall. intros reg Hreg.
  apply binding_registrations_elem in Hreg as (key & -> & _ & Hne).
  by rewrite reg_key_binding.
Qed.

Lemma registrations_of_elem {realm : Realm} (page_match : bool)
      (values : object) (bindings : list Hotkey) (value : Hotkey)
      (s key : string) :
  (registrations_of page_match values bindings).1 = Returned tt ->
  value ∈ bindings ->
  prop_get values (keys value) = VStr s ->
  key ∈ split "|" s -> key <> "" ->
  binding_registration page_match value key
    ∈ (registrations_of page_match values bindings).2.
Proof.
  intros Hr Hin Hs Hk Hne.
  induction bindings as [|value' bindings IH]; [by apply not_elem_of_nil in Hin|].
  simpl in *.
  destruct (split_value (prop_get values (keys value'))) as [combos|e|] eqn:Ec;
    try discriminate.
  destruct (registrations_of page_match values bindings) as [r later].
  simpl in *. apply elem_of_app.
  apply elem_of_cons in Hin as [->|Hin].
  - left. rewrite Hs in Ec. simpl in Ec. injection Ec as <-.
    apply binding_registrations_elem. eauto.
  - right. by apply IH.
Qed.

Lemma armed_latest (made older : Hotkeys.table) (key : string)
      (r0 : registration) :
  (forall r, r ∈ made -> reg_key r = key -> r = r0) ->
  (exists r, r ∈ made /\ reg_key r = key) ->
  Hotkeys.armed (made ++ older) key = Some r0.
Proof.
  intros Hall (r & Hin & Hk).
  induction made as [|r' made IH]; [by apply not_elem_of_nil in Hin|].
  simpl. destruct (String.eqb_spec (reg_key r') key) as [E|E].
  - f_equal. apply Hall; [apply list_elem_of_here | exact E].
  - apply IH.
    + intros r1 H1. apply Hall. by apply list_elem_of_further.
    + apply elem_of_cons in Hin as [->|Hin]; done.
Qed.

Lemma armed_binding (page_match : bool) (value : Hotkey)
      (combos : list string) (older : Hotkeys.table) (key : string) :
  key ∈ combos -> key <> "" ->
  Hotkeys.armed (rev (binding_registrations page_match value combos) ++ older) key
  = Some (binding_registration page_match value key).
Proof.
  intros Hin Hne. apply armed_latest.
  - intros r Hr Hk.
    apply list_elem_of_In, in_rev, list_elem_of_In in Hr.
    apply binding_registrations_elem in Hr as (key' & -> & _ & _).
    rewrite reg_key_binding in Hk. by subst.
  - exists (binding_registration page_match value key). split.
    + apply list_elem_of_In. rewrite <- in_rev. apply list_elem_of_In.
      apply binding_registrations_elem. eauto.
    + apply reg_key_binding.
Qed.

(** What a completed [resetHotkeys] has loaded and registered. *)
Lemma resetHotkeys_completed {realm : Realm} {S : Type} `{Storage S} (st : state S) :
  (resetHotkeys st).1 = Returned tt ->
  exists values,
    settings (this (after ResetHotkeys st)) = Some values
    /\ (registrations_of (pageMatchesFilter (this st) (pathname st))
                         values (hotkeys (this st))).1 = Returned tt
    /\ hotkey_table (after ResetHotkeys st)
       = rev (registrations_of (pageMatchesFilter (this st) (pathname st))
                               values (hotkeys (this st))).2
         ++ hotkey_table st.
Proof.
  simpl. rewrite resetHotkeys_run. simpl.
  destruct (getValue _ _ _) as [[stored|e|] s]; simpl; try discriminate.
  destruct (registrations_of _ _ _) as [r' made] eqn:E. simpl.
  intros ->. eexists. split; [reflexivity|]. rewrite E. split; reflexivity.
Qed.

Lemma registrations_of_strings {realm : Realm} (page_match : bool)
      (values : object) (bindings : list Hotkey) (value : Hotkey) :
  (registrations_of page_match values bindings).1 = Returned tt ->
  value ∈ bindings ->
  exists s, prop_get values (keys value) = VStr s.
Proof.
  intros Hr Hin.
  induction bindings as [|value' bindings IH]; [by apply not_elem_of_nil in Hin|].
  simpl in Hr.
  destruct (prop_get values (keys value')) as [| | | |s|] eqn:Ev;
    simpl in Hr; try discriminate.
  destruct (registrations_of page_match values bindings) as [r later].
  simpl in *. apply elem_of_cons in Hin as [->|Hin]; [eauto | by apply IH].
Qed.

Lemma resetHotkeys_single {realm : Realm} {S : Type} `{Storage S} (st : state S)
      (value : Hotkey) (s : string) :
  (resetHotkeys st).1 = Returned tt ->
  hotkeys (this st) = [value] ->
  settings_get (this (after ResetHotkeys st)) (keys value) = Returned (VStr s) ->
  hotkey_table (after ResetHotkeys st)
  = rev (binding_registrations (pageMatchesFilter (this st) (pathname st))
                               value (split "|" s))
    ++ hotkey_table st.
Proof.
  intros Hr Hh Hs.
  destruct (resetHotkeys_completed st Hr) as (values & Hv & _ & Ht).
  rewrite Ht, Hh. unfold settings_get in Hs. rewrite Hv in Hs.
  injection Hs as Hs. simpl. rewrite Hs. simpl. by rewrite app_nil_r.
Qed.

(** The [keys] field of a binding is looked up in the settings: it is not
    the case that a binding with [keys = "a|b"] has ["a"] and ["b"]
    registered whenever [resetHotkeys()] completes on a matching page.  A
    module whose settings bind the property ["a|b"] to ["x|y"] gets ["x"]
    and ["y"] registered, and neither ["a"] nor ["b"]. *)
Lemma resetHotkeys_keys_name_a_setting :
  ~ (forall (realm : Realm) (S : Type) (backend : Storage S) (st : state S)
            (value : Hotkey),
        value ∈ hotkeys (this st) -> keys value = "a|b" ->
        (resetHotkeys st).1 = Returned tt ->
        pageMatchesFilter (this st) (pathname st) = true ->
        binding_registration true value "a"
          ∈ hotkey_table (after ResetHotkeys st)
        /\ binding_registration true value "b"
             ∈ hotkey_table (after ResetHotkeys st)).
Proof.
  intros Hall.
  set (focus := {| keys := "a|b"; fnct := Declared 7;
                   element := None; selector := None |}).
  set (st := State (with_hotkeys [focus]
                      (constructor "Search"
                                   {[ "enabled" := VBool true;
                                      "a|b" := VStr "x|y" ]}
                                   None None None))
                   {| cells := ∅; condition := Healthy |} [] "/posts").
  destruct (Hall empty_objects kvstore kvstore_storage st focus) as [Ha _].
  - apply list_elem_of_here.
  - reflexivity.
  - vm_compute. reflexivity.
  - reflexivity.
  - assert (Ht : hotkey_table (after (realm := empty_objects) ResetHotkeys st)
                 = [binding_registration true focus "y";
                    binding_registration true focus "x"])
      by (vm_compute; reflexivity).
    rewrite Ht in Ha.
    apply elem_of_cons in Ha as [Ha|Ha]; [discriminate Ha|].
    apply elem_of_cons in Ha as [Ha|Ha]; [discriminate Ha|].
    by apply not_elem_of_nil in Ha.
Qed.

(** A binding whose [keys] is itself a combination string, on a module that
    has no setting of that name: [resetHotkeys()] fails on the missing string
    and registers nothing. *)
Example resetHotkeys_unconfigured_binding :
  let realm := empty_objects in
  let st : state kvstore :=
    State (with_hotkeys [{| keys := "a|b"; fnct := Declared 7;
                            element := None; selector := None |}]
             (constructor "Search" base_defaults None None None))
          {| cells := ∅; condition := Healthy |} [] "/posts" in
  (resetHotkeys st).1 = Threw TypeError
  /\ hotkey_table (after ResetHotkeys st) = [].
Proof. vm_compute. auto. Qed.

(** C3 (what the code does).  The [keys] field of a binding is not split:
    it is taken as the name of a settings property, and the combinations are
    the ["|"]-separated segments of the string loaded under that property,
    where the claim, like the description of the field ("List of keys that
    should trigger the function, pipe-separated"), has the field itself
    carry the combinations.  [resetHotkeys()] only ever adds
    registrations, none of them for the empty string, however the call ends;
    it completes only if every binding's property holds a string.  When it
    completes, every non-empty segment of every binding's string has been
    registered: with the binding's handler, element and selector if the page
    matches, with the inert handler if it does not.  For a module whose one
    binding is configured as ["a|b"], the table then arms ["a"] and ["b"]
    with the handler on a matching page and with the inert handler
    otherwise; for ["a||b"] exactly the registrations for ["b"] and ["a"]
    are added, nothing for the empty segment.  The last part is the claim's
    binding, whose [keys] field is ["a|b"], on a matching page: over
    settings that bind the property ["a|b"] to ["x|y"] the call completes
    with ["y"] and ["x"] registered and neither ["a"] nor ["b"] armed; over
    the base defaults, which have no such property, the call fails with a
    [TypeError] and registers nothing. *)
Theorem resetHotkeys_arms_segments :
  forall realm : Realm,
  (forall (S : Type) (backend : Storage S) (st : state S),
      exists made,
        hotkey_table (after ResetHotkeys st) = rev made ++ hotkey_table st
        /\ Forall (fun r => reg_key r <> "") made)
  /\ (forall (S : Type) (backend : Storage S) (st : state S)
             (value : Hotkey) (s key : string),
         (resetHotkeys st).1 = Returned tt ->
         value ∈ hotkeys (this st) ->
         settings_get (this (after ResetHotkeys st)) (keys value)
         = Returned (VStr s) ->
         key ∈ split "|" s -> key <> "" ->
         binding_registration (pageMatchesFilter (this st) (pathname st))
                              value key
           ∈ hotkey_table (after ResetHotkeys st))
  /\ (forall (S : Type) (backend : Storage S) (st : state S) (value : Hotkey),
         (resetHotkeys st).1 = Returned tt ->
         hotkeys (this st) = [value] ->
         settings_get (this (after ResetHotkeys st)) (keys value)
         = Returned (VStr "a|b") ->
         let table := hotkey_table (after ResetHotkeys st) in
         let handler key :=
           {| reg_key := key; reg_fnct := fnct value;
              reg_element := element value; reg_selector := selector value |} in
         let no_op key :=
           {| reg_key := key; reg_fnct := Inert;
              reg_element := None; reg_selector := None |} in
         (pageMatchesFilter (this st) (pathname st) = true ->
          Hotkeys.armed table "a" = Some (handler "a")
          /\ Hotkeys.armed table "b" = Some (handler "b"))
         /\ (pageMatchesFilter (this st) (pathname st) = false ->
             Hotkeys.armed table "a" = Some (no_op "a")
             /\ Hotkeys.armed table "b" = Some (no_op "b")))
  /\ (forall (S : Type) (backend : Storage S) (st : state S) (value : Hotkey),
         (resetHotkeys st).1 = Returned tt ->
         hotkeys (this st) = [value] ->
         settings_get (this (after ResetHotkeys st)) (keys value)
         = Returned (VStr "a||b") ->
         let page_match := pageMatchesFilter (this st) (pathname st) in
         hotkey_table (after ResetHotkeys st)
         = binding_registration page_match value "b"
             :: binding_registration page_match value "a"
             :: hotkey_table st)
  /\ (forall (S : Type) (backend : Storage S) (st : state S) (value : Hotkey),
         (resetHotkeys st).1 = Returned tt ->
         value ∈ hotkeys (this st) ->
         exists s, settings_get (this (after ResetHotkeys st)) (keys value)
                   = Returned (VStr s))
  /\ (let focus : Hotkey :=
        {| keys := "a|b"; fnct := Declared 7;
           element := None; selector := None |} in
      let module (D : obj) : state kvstore :=
        State (with_hotkeys [focus] (constructor "Search" D None None None))
              {| cells := ∅; condition := Healthy |} [] "/posts" in
      let configured :=
        module {[ "enabled" := VBool true; "a|b" := VStr "x|y" ]} in
      let unconfigured := module base_defaults in
      (pageMatchesFilter (this configured) (pathname configured) = true
       /\ (resetHotkeys configured).1 = Returned tt
       /\ hotkey_table (after ResetHotkeys configured)
          = [binding_registration true focus "y";
             binding_registration true focus "x"]
       /\ Hotkeys.armed (hotkey_table (after ResetHotkeys configured)) "a" = None
       /\ Hotkeys.armed (hotkey_table (after ResetHotkeys configured)) "b" = None)
      /\ (resetHotkeys unconfigured).1 = Threw TypeError
      /\ hotkey_table (after ResetHotkeys unconfigured) = []).
Proof.
  intros realm. split.
  { intros S backend st. simpl. rewrite resetHotkeys_run. simpl.
    destruct (getValue _ _ _) as [[stored|e|] s]; simpl;
      [|exists []; split; [reflexivity | constructor]..].
    pose proof (registrations_of_keys
                  (pageMatchesFilter (this st) (pathname st))
                  (plain (backfilled (getDefaultSettings (this st)) stored))
                  (hotkeys (this st))) as Hk.
    destruct (registrations_of _ _ _) as [r' made]. simpl in *.
    exists made. split; [reflexivity | exact Hk]. }
  split.
  { intros S backend st value s key Hr Hin Hs Hk Hne.
    destruct (resetHotkeys_completed st Hr) as (values & Hv & Hok & Ht).
    rewrite Ht. apply elem_of_app. left.
    apply list_elem_of_In. rewrite <- in_rev. apply list_elem_of_In.
    unfold settings_get in Hs. rewrite Hv in Hs. injection Hs as Hs.
    by apply (registrations_of_elem _ _ _ value s key). }
  split.
  { intros S backend st value Hr Hh Hs table handler no_op.
    subst table. rewrite (resetHotkeys_single st value "a|b" Hr Hh Hs).
    split; intros ->; split;
      rewrite armed_binding; try reflexivity; try discriminate;
      change (split "|" "a|b") with ["a"; "b"]; set_solver. }
  split.
  { intros S backend st value Hr Hh Hs page_match.
    rewrite (resetHotkeys_single st value "a||b" Hr Hh Hs). reflexivity. }
  split.
  { intros S backend st value Hr Hin.
    destruct (resetHotkeys_completed st Hr) as (values & Hv & Hok & _).
    destruct (registrations_of_strings _ _ _ value Hok Hin) as [s Hs].
    exists s. unfold settings_get. by rewrite Hv, Hs. }
  repeat split; vm_compute; reflexivity.
Qed.

Lemma resetHotkeys_arms_segments_witness :
  let realm := empty_objects in
  let focus : Hotkey :=
    {| keys := "hotkeyFocus"; fnct := Declared 7;
       element := None; selector := Some "input" |} in
  let st : state kvstore :=
    State (with_hotkeys [focus]
             (constructor "Search"
                          {[ "enabled" := VBool true; "hotkeyFocus" := VStr "a|b" ]}
                          (Some (OnePattern PageDefintion_post)) None None))
          {| cells := ∅; condition := Healthy |} [] "/posts/45" in
  let table := hotkey_table (after ResetHotkeys st) in
  Hotkeys.armed table "a"
  = Some {| reg_key := "a"; reg_fnct := Declared 7;
            reg_element := None; reg_selector := Some "input" |}
  /\ Hotkeys.armed table "b"
     = Some {| reg_key := "b"; reg_fnct := Declared 7;
               reg_element := None; reg_selector := Some "input" |}
  /\ binding_registration true focus "b" ∈ table.
Proof.
  intros realm focus st table.
  destruct (resetHotkeys_arms_segments realm) as (_ & Hmade & Hab & _ & _).
  split; [|split].
  - apply (Hab kvstore kvstore_storage st focus); vm_compute; reflexivity.
  - apply (Hab kvstore kvstore_storage st focus); vm_compute; reflexivity.
  - apply (Hmade kvstore kvstore_storage st focus "a|b" "b").
    + vm_compute; reflexivity.
    + apply list_elem_of_here.
    + vm_compute; reflexivity.
    + change (split "|" "a|b") with ["a"; "b"].
      apply list_elem_of_further, list_elem_of_here.
    + discriminate.
Defined.

(** C7.  What [resetHotkeys()] does is independent of the enabled field: run
    from two instances that differ in that field at most, with the same
    storage, table and location, it ends the same way, leaves the same
    hotkey table and the same storage, and leaves instances that still
    differ in that field at most, each with the enabled value it had.  The
    registrations of a completed run are those of [registrations_of] for the
    loaded settings, whose only gate is the page match. *)
Theorem resetHotkeys_ignores_enabled :
  forall realm : Realm,
  (forall (S : Type) (backend : Storage S) (m1 m2 : RE6Module)
          (s : S) (t : Hotkeys.table) (p : string),
      same_but_enabled m1 m2 ->
      let r1 := resetHotkeys (State m1 s t p) in
      let r2 := resetHotkeys (State m2 s t p) in
      r1.1 = r2.1
      /\ hotkey_table r1.2 = hotkey_table r2.2
      /\ storage r1.2 = storage r2.2
      /\ same_but_enabled (this r1.2) (this r2.2)
      /\ enabled (this r1.2) = enabled m1
      /\ enabled (this r2.2) = enabled m2)
  /\ (forall (S : Type) (backend : Storage S) (st : state S),
         (resetHotkeys st).1 = Returned tt ->
         exists values,
           settings (this (after ResetHotkeys st)) = Some values
           /\ (registrations_of (pageMatchesFilter (this st) (pathname st))
                                values (hotkeys (this st))).1 = Returned tt
           /\ hotkey_table (after ResetHotkeys st)
              = rev (registrations_of
                       (pageMatchesFilter (this st) (pathname st))
                       values (hotkeys (this st))).2
                ++ hotkey_table st).
Proof.
  intros realm.
  split; [|intros S backend st; apply resetHotkeys_completed].
  intros S backend m1 m2 s t p Hsame r1 r2. subst r1 r2.
  rewrite Hsame. rewrite !resetHotkeys_run. simpl.
  destruct (getValue _ _ _) as [[stored|e|] s']; simpl;
    [|repeat split; reflexivity..].
  change (pageMatchesFilter (with_enabled (enabled m2) m1) p)
    with (pageMatchesFilter m1 p).
  destruct (registrations_of _ _ _) as [r' made]. simpl.
  repeat split; reflexivity.
Qed.

Lemma resetHotkeys_ignores_enabled_witness :
  let realm := empty_objects in
  let focus : Hotkey :=
    {| keys := "hotkeyFocus"; fnct := Declared 7;
       element := None; selector := None |} in
  let m : RE6Module :=
    with_hotkeys [focus]
      (constructor "Search"
                   {[ "enabled" := VBool true; "hotkeyFocus" := VStr "a|b" ]}
                   None None None) in
  let s : kvstore := {| cells := ∅; condition := Healthy |} in
  hotkey_table (resetHotkeys (State (setEnabled true m) s [] "/posts")).2
  = hotkey_table (resetHotkeys (State (setEnabled false m) s [] "/posts")).2.
Proof.
  intros realm focus m s.
  destruct (resetHotkeys_ignores_enabled realm) as [Hsame _].
  apply (Hsame kvstore kvstore_storage (setEnabled true m) (setEnabled false m)
               s [] "/posts").
  reflexivity.
Defined.

(** ** Reading the cache *)

Lemma collect_loaded {realm : Realm} (m : RE6Module) (s : object)
      (entries : list string) (result : obj) :
  settings m = Some s -> "__proto__" ∉ entries ->
  collect m entries (plain result)
  = Returned (plain (foldl (fun r entry => <[entry := prop_get s entry]> r)
                           result entries)).
Proof.
  intros E. revert result. induction entries as [|entry entries IH];
    intros result Hn; simpl; [reflexivity|].
  apply not_elem_of_cons in Hn as [Hk Hn].
  unfold settings_get. rewrite E, prop_set_plain by done. by apply IH.
Qed.

Lemma collect_lookup {realm : Realm} (s : object) (entries : list string)
      (result : obj) (k : string) :
  foldl (fun r entry => <[entry := prop_get s entry]> r) result entries !! k
  = if decide (k ∈ entries) then Some (prop_get s k) else result !! k.
Proof.
  revert result. induction entries as [|a l IH]; intros result; cbn [foldl].
  - destruct (decide (k ∈ [])) as [Hin|_]; [|done].
    by apply not_elem_of_nil in Hin.
  - rewrite IH.
    destruct (decide (k ∈ l)) as [Hin|Hnin];
      destruct (decide (k ∈ a :: l)) as [Hin'|Hnin']; try done.
    + exfalso. apply Hnin'. by apply list_elem_of_further.
    + apply elem_of_cons in Hin' as [->|?]; [|done].
      by rewrite lookup_insert_eq.
    + rewrite lookup_insert_ne; [done|].
      intros ->. apply Hnin', list_elem_of_here.
Qed.

Lemma pushSettings_loaded {realm : Realm} {S : Type} `{Storage S}
      (p : pushed) (st : state S) (b : bool) :
  (pushSettings p st).1 = Returned b ->
  is_Some (settings (this (pushSettings p st).2)).
Proof.
  unfold pushSettings, bind at 1 3. rewrite loadSettingsCache_run.
  destruct (getValue _ _ _) as [[stored|e|] s]; simpl; try discriminate.
  intros _.
  apply (keeps_merge_save still_loaded still_loaded_refl still_loaded_trans
                          still_loaded_settings p).
  simpl. eauto.
Qed.

Lemma fetch_resolved_loaded {realm : Realm} {S : Type} `{Storage S}
      (st : state S) :
  ((prepare st).1 = Returned tt ->
   is_Some (settings (this (after Prepare st))))
  /\ (forall p b, (pushSettings p st).1 = Returned b ->
                  is_Some (settings (this (after (PushSettings p) st))))
  /\ (forall b, (clearSettings st).1 = Returned b ->
                is_Some (settings (this (after ClearSettings st))))
  /\ (forall b, (refreshSettings st).1 = Returned b ->
                is_Some (settings (this (after RefreshSettings st))))
  /\ (forall p f, (fetchSettings p true st).1 = Returned f ->
                  is_Some (settings (this (after (FetchSettings p true) st)))).
Proof.
  repeat split.
  - simpl. unfold prepare, bind. rewrite loadSettingsCache_run.
    destruct (getValue _ _ _) as [[stored|e|] s]; simpl; try discriminate.
    eauto.
  - intros p b. apply pushSettings_loaded.
  - intros b. simpl. rewrite clearSettings_run. simpl.
    destruct (deleteValue _ _) as [[b'|e|] s]; simpl; try discriminate.
    rewrite loadSettingsCache_run. simpl.
    destruct (getValue _ _ _) as [[stored|e|] s']; simpl; try discriminate.
    eauto.
  - intros b. simpl. unfold refreshSettings. rewrite loadSettingsCache_run.
    destruct (getValue _ _ _) as [[stored|e|] s']; simpl; try discriminate.
    eauto.
  - intros p f. simpl. unfold fetchSettings, promise_of, bind.
    rewrite loadSettingsCache_run.
    destruct (getValue _ _ _) as [[stored|e|] s']; simpl; try discriminate.
    unfold reading. simpl. destruct (fetchSettings_cached _ _); simpl; eauto;
      discriminate.
Qed.

(** C10 (counterexample).  The claim fails in three places.  Not every
    non-fresh read before a load dereferences the unassigned record: the
    read of an empty key list on a new instance returns an empty object.  On
    a loaded cache an absent key is not always [undefined]: after
    [prepare()] over the base defaults, [fetchSettings("toString")] is the
    built-in function.  And the key-list form does not always return the
    cached values: over a stored record that holds [1] under [__proto__],
    [fetchSettings("__proto__")] is the cached [1], while the object
    returned for the list [["__proto__"]] has no property of its own and
    reads [Object.prototype] under that name. *)
Lemma fetchSettings_claim_limits :
  let realm := empty_objects in
  let unloaded := constructor "Thumbs" base_defaults None None None in
  let prepared : state kvstore :=
    after Prepare
          (State unloaded {| cells := ∅; condition := Healthy |} [] "/posts") in
  let imported : state kvstore :=
    after Prepare
          (State unloaded
                 {| cells := {[ "re621.Thumbs" := {[ "__proto__" := VNum 1 ]} ]};
                    condition := Healthy |} [] "/posts") in
  (settings unloaded = None
   /\ fetchSettings_cached unloaded (Names []) = Returned (Several (plain ∅))
   /\ fetchSettings_cached unloaded (Names []) <> Threw TypeError)
  /\ (is_Some (settings (this prepared))
      /\ (own <$> settings (this prepared)) = Some base_defaults
      /\ base_defaults !! "toString" = None
      /\ fetchSettings_cached (this prepared) (Name "toString")
         = Returned (Single (VRef 9))
      /\ VRef 9 <> VUndefined)
  /\ (fetchSettings_cached (this imported) (Name "__proto__")
      = Returned (Single (VNum 1))
      /\ fetchSettings_cached (this imported) (Names ["__proto__"])
         = Returned (Several (plain ∅))
      /\ prop_get (plain ∅) "__proto__" = VRef Object_prototype
      /\ VRef Object_prototype <> VNum 1).
Proof.
  intros realm unloaded prepared imported.
  repeat split; first [discriminate | by eexists | vm_compute; reflexivity].
Qed.

(** C10 (amended).  On an instance whose settings were never loaded (a new
    instance is one), a non-fresh [fetchSettings] of a key, or of a key list
    with at least one key, fails on the unassigned record; of the empty key
    list it returns the empty object.  [prepare], [pushSettings],
    [clearSettings], [refreshSettings] and a fresh [fetchSettings] load the
    cache when they resolve, and no call unloads it.  On a loaded cache the
    read is total: a key gives the cached value, which for a key that the
    record does not hold is [undefined] unless the record inherits a value
    under that name (from [Object.prototype], as long as that is the
    record's prototype); a key list without [__proto__] gives the object
    with exactly the listed keys bound to their cached values; and the read
    changes nothing, storage included. *)
Theorem fetchSettings_needs_loaded_cache :
  forall realm : Realm,
  (forall className D c w t,
      settings (constructor className D c w t) = None)
  /\ (forall (m : RE6Module) (key : string),
         settings m = None ->
         fetchSettings_cached m (Name key) = Threw TypeError)
  /\ (forall (m : RE6Module) (key : string) (more : list string),
         settings m = None ->
         fetchSettings_cached m (Names (key :: more)) = Threw TypeError)
  /\ (forall m : RE6Module,
         fetchSettings_cached m (Names []) = Returned (Several (plain ∅)))
  /\ (forall (S : Type) (backend : Storage S) (st : state S),
         ((prepare st).1 = Returned tt ->
          is_Some (settings (this (after Prepare st))))
         /\ (forall p b, (pushSettings p st).1 = Returned b ->
                         is_Some (settings (this (after (PushSettings p) st))))
         /\ (forall b, (clearSettings st).1 = Returned b ->
                       is_Some (settings (this (after ClearSettings st))))
         /\ (forall b, (refreshSettings st).1 = Returned b ->
                       is_Some (settings (this (after RefreshSettings st))))
         /\ (forall p f, (fetchSettings p true st).1 = Returned f ->
                         is_Some (settings
                                    (this (after (FetchSettings p true) st)))))
  /\ (forall (S : Type) (backend : Storage S) (c : call) (st : state S),
         is_Some (settings (this st)) ->
         is_Some (settings (this (after c st))))
  /\ (forall (m : RE6Module) (s : object) (key : string),
         settings m = Some s ->
         fetchSettings_cached m (Name key) = Returned (Single (prop_get s key))
         /\ (forall v, own s !! key = Some v ->
                       fetchSettings_cached m (Name key) = Returned (Single v))
         /\ (own s !! key = None ->
             match proto s with
             | ObjectPrototype => inherited key = None
             | NullPrototype => True
             | Foreign address => foreign_get address key = VUndefined
             end ->
             fetchSettings_cached m (Name key) = Returned (Single VUndefined)))
  /\ (forall (m : RE6Module) (s : object) (entries : list string),
         settings m = Some s -> "__proto__" ∉ entries ->
         exists result : obj,
           fetchSettings_cached m (Names entries)
           = Returned (Several (plain result))
           /\ forall k, result !! k
                        = if decide (k ∈ entries) then Some (prop_get s k)
                          else None)
  /\ (forall (S : Type) (backend : Storage S) (st : state S) (p : property),
         fetchSettings p false st = (fetchSettings_cached (this st) p, st)).
Proof.
  intros realm.
  split; [reflexivity|].
  split; [intros m key E; unfold fetchSettings_cached, settings_get; by rewrite E|].
  split.
  { intros m key more E. unfold fetchSettings_cached. simpl.
    unfold settings_get. by rewrite E. }
  split; [reflexivity|].
  split; [intros S backend st; apply fetch_resolved_loaded|].
  split; [intros S backend c st; apply after_still_loaded|].
  split.
  { intros m s key E. unfold fetchSettings_cached, settings_get. rewrite E.
    split; [reflexivity|]. split.
    - intros v E'. by rewrite (prop_get_own s key v).
    - intros E' Hp. unfold prop_get. rewrite E'.
      destruct (proto s); [by rewrite Hp | done | by rewrite Hp]. }
  split; [|reflexivity].
  intros m s entries E Hn. unfold fetchSettings_cached.
  rewrite (collect_loaded m s entries ∅ E Hn). eexists. split; [reflexivity|].
  intros k. rewrite collect_lookup.
  destruct (decide (k ∈ entries)); [reflexivity | apply lookup_empty].
Qed.

Lemma fetchSettings_needs_loaded_cache_witness :
  let realm := empty_objects in
  let fresh : state kvstore :=
    State (constructor "Thumbs" base_defaults None None None)
          {| cells := ∅; condition := Healthy |} [] "/posts" in
  fetchSettings_cached (this fresh) (Name "enabled") = Threw TypeError
  /\ fetchSettings_cached (this (after Prepare fresh)) (Name "enabled")
     = Returned (Single (VBool true))
  /\ fetchSettings_cached (this (after Prepare fresh)) (Name "zoom")
     = Returned (Single VUndefined)
  /\ is_Some (settings (this (after Prepare fresh))).
Proof.
  intros realm fresh.
  destruct (fetchSettings_needs_loaded_cache realm)
    as (_ & Hnone & _ & _ & Hload & _ & Hsome & _).
  split; [apply Hnone; reflexivity|].
  split.
  { destruct (Hsome (this (after Prepare fresh)) (plain base_defaults) "enabled")
      as (_ & Hown & _); [vm_compute; reflexivity|].
    apply Hown. vm_compute; reflexivity. }
  split.
  { destruct (Hsome (this (after Prepare fresh)) (plain base_defaults) "zoom")
      as (_ & _ & Habsent); [vm_compute; reflexivity|].
    apply Habsent; vm_compute; reflexivity. }
  apply (Hload kvstore kvstore_storage fresh). vm_compute; reflexivity.
Defined.

(** * Further properties of the settings engine *)

(** ** The remaining methods, step by step *)

Lemma prepare_run {realm : Realm} {S : Type} `{Storage S} (st : state S) :
  prepare st =
  let '(r, s) := getValue (own_key st) (getDefaultSettings (this st)) (storage st) in
  match r with
  | Returned stored =>
      let values := plain (backfilled (getDefaultSettings (this st)) stored) in
      (Returned tt,
       State (with_enabled (prop_get values "enabled")
                           (with_settings (Some values) (this st)))
             s (hotkey_table st) (pathname st))
  | Threw e => (Threw e, State (this st) s (hotkey_table st) (pathname st))
  | Hung => (Hung, State (this st) s (hotkey_table st) (pathname st))
  end.
Proof.
  unfold prepare, bind at 1. rewrite loadSettingsCache_run. unfold own_key.
  destruct (getValue _ _ _) as [[stored|e|] s]; reflexivity.
Qed.

Lemma fetchSettings_fresh_run {realm : Realm} {S : Type} `{Storage S}
      (st : state S) (p : property) :
  fetchSettings p true st =
  let '(r, s) := getValue (own_key st) (getDefaultSettings (this st)) (storage st) in
  match r with
  | Returned stored =>
      let m := with_settings
                 (Some (plain (backfilled (getDefaultSettings (this st)) stored)))
                 (this st) in
      (match fetchSettings_cached m p with
       | Returned f => Returned f
       | _ => Hung
       end,
       State m s (hotkey_table st) (pathname st))
  | _ => (Hung, State (this st) s (hotkey_table st) (pathname st))
  end.
Proof.
  unfold fetchSettings, promise_of, bind. rewrite loadSettingsCache_run.
  unfold own_key.
  destruct (getValue _ _ _) as [[stored|e|] s]; try reflexivity.
  unfold reading. simpl.
  destruct (fetchSettings_cached _ p); reflexivity.
Qed.

Lemma fetchSettingsGently_run {realm : Realm} {S : Type} `{Storage S}
      (st : state S) (k : string) :
  fetchSettingsGently k st =
  let '(r, s) := getValue (own_key st) (getDefaultSettings (this st)) (storage st) in
  let st' := State (this st) s (hotkey_table st) (pathname st) in
  match r with
  | Returned stored =>
      (Returned (prop_get (plain (backfilled (getDefaultSettings (this st)) stored))
                          k), st')
  | Threw e => (Threw e, st')
  | Hung => (Hung, st')
  end.
Proof.
  unfold fetchSettingsGently, bind. rewrite loadSettingsValues_run.
  unfold own_key.
  destruct (getValue _ _ _) as [[stored|e|] s]; reflexivity.
Qed.

Lemma getSavedSettings_run {realm : Realm} {S : Type} `{Storage S}
      (st : state S) :
  getSavedSettings st =
  let '(r, s) := getValue (own_key st) ∅ (storage st) in
  let st' := State (this st) s (hotkey_table st) (pathname st) in
  match r with
  | Returned data => (Returned (own_key st, data), st')
  | Threw e => (Threw e, st')
  | Hung => (Hung, st')
  end.
Proof.
  unfold getSavedSettings, bind, self, XM_getValue, ret, own_key. simpl.
  destruct (getValue _ _ _) as [[stored|e|] s]; reflexivity.
Qed.

Lemma saveSettingsCache_run {realm : Realm} {S : Type} `{Storage S}
      (st : state S) :
  saveSettingsCache st =
  match settings (this st) with
  | Some record =>
      let '(r, s) := setValue (own_key st) (own record) (storage st) in
      (r, State (this st) s (hotkey_table st) (pathname st))
  | None => (Threw TypeError, st)
  end.
Proof.
  unfold saveSettingsCache, bind, self, own_key. simpl.
  destruct (settings (this st)); reflexivity.
Qed.

(** When the reload fails, so does [pushSettings], whatever is pushed. *)
Lemma pushSettings_unread {realm : Realm} {S : Type} `{Storage S}
      (st : state S) (p : pushed) (e : error) (s : S) :
  getValue (own_key st) (getDefaultSettings (this st)) (storage st)
  = (Threw e, s) ->
  (pushSettings p st).1 = Threw e.
Proof.
  intros E. unfold pushSettings, bind at 1. rewrite loadSettingsCache_run.
  fold (own_key st). by rewrite E.
Qed.

(** X1.  A fresh [fetchSettings] never rejects.  When the storage read
    resolves, the fresh fetch of a name resolves with what the reloaded
    record gives under that name; when the read rejects, the promise of the
    fresh fetch never settles, whereas [fetchSettingsGently],
    [refreshSettings], [prepare] and [pushSettings] reject with the
    storage's error. *)
Theorem fresh_fetch_never_rejects :
  forall (realm : Realm) (S : Type) (backend : Storage S) (st : state S),
    let D := getDefaultSettings (this st) in
    let read := (getValue (own_key st) D (storage st)).1 in
    (forall p e, (fetchSettings p true st).1 <> Threw e)
    /\ (forall stored k, read = Returned stored ->
          (fetchSettings (Name k) true st).1
          = Returned (Single (prop_get (plain (backfilled D stored)) k))
          /\ fetchSettings_cached
               (this (after (FetchSettings (Name k) true) st)) (Name k)
             = Returned (Single (prop_get (plain (backfilled D stored)) k)))
    /\ (forall e, read = Threw e ->
          (forall p, (fetchSettings p true st).1 = Hung)
          /\ (forall k, (fetchSettingsGently k st).1 = Threw e)
          /\ (refreshSettings st).1 = Threw e
          /\ (prepare st).1 = Threw e
          /\ (forall q, (pushSettings q st).1 = Threw e)).
Proof.
  intros realm S backend st D read. subst read D.
  split; [|split].
  - intros p e. rewrite fetchSettings_fresh_run.
    destruct (getValue _ _ _) as [[stored|e'|] s]; simpl; try discriminate.
    destruct (fetchSettings_cached _ p); discriminate.
  - intros stored k.
    change (after (FetchSettings (Name k) true) st)
      with (fetchSettings (Name k) true st).2.
    rewrite fetchSettings_fresh_run.
    destruct (getValue _ _ _) as [[stored'|e'|] s]; simpl; try discriminate.
    intros [= ->]. split; reflexivity.
  - intros e Hread.
    destruct (getValue (own_key st) (getDefaultSettings (this st)) (storage st))
      as [r s] eqn:E.
    simpl in Hread. subst r.
    split.
    { intros p. rewrite fetchSettings_fresh_run, E. reflexivity. }
    split.
    { intros k. rewrite fetchSettingsGently_run, E. reflexivity. }
    split.
    { unfold refreshSettings. rewrite loadSettingsCache_run.
      fold (own_key st). by rewrite E. }
    split.
    { rewrite prepare_run, E. reflexivity. }
    intros q. by apply (pushSettings_unread st q e s).
Qed.

Lemma fresh_fetch_never_rejects_witness :
  let realm := empty_objects in
  let down : state kvstore :=
    State (constructor "Thumbs" base_defaults None None None)
          {| cells := ∅; condition := Unavailable |} [] "/posts" in
  let up : state kvstore :=
    State (constructor "Thumbs" base_defaults None None None)
          {| cells := ∅; condition := Healthy |} [] "/posts" in
  (fetchSettings (Name "enabled") true down).1 = Hung
  /\ (fetchSettingsGently "enabled" down).1 = Threw StorageError
  /\ (fetchSettings (Name "enabled") true up).1
     = Returned (Single (VBool true)).
Proof.
  intros realm down up.
  destruct (fresh_fetch_never_rejects realm kvstore kvstore_storage down)
    as (_ & _ & Hdown).
  destruct (Hdown StorageError eq_refl) as (Hh & Hg & _).
  destruct (fresh_fetch_never_rejects realm kvstore kvstore_storage up)
    as (_ & Hup & _).
  destruct (Hup base_defaults "enabled" eq_refl) as (Hf & _).
  split; [apply Hh|]. split; [apply Hg|]. rewrite Hf.
  vm_compute; reflexivity.
Defined.

(** X2.  [fetchSettingsGently] reads through the storage without touching
    the instance: the cache, the enabled flag and everything else of [this]
    are as before, as is the hotkey table.  It makes the same storage read
    as a fresh [fetchSettings] of the same name and resolves to the same
    value; so a non-fresh read after it still returns the old cached
    value. *)
Theorem fetchSettingsGently_leaves_cache :
  forall (realm : Realm) (S : Type) (backend : Storage S) (st : state S)
         (k : string),
    this (after (FetchSettingsGently k) st) = this st
    /\ hotkey_table (after (FetchSettingsGently k) st) = hotkey_table st
    /\ storage (after (FetchSettingsGently k) st)
       = storage (after (FetchSettings (Name k) true) st)
    /\ (forall v, (fetchSettingsGently k st).1 = Returned v <->
                  (fetchSettings (Name k) true st).1 = Returned (Single v))
    /\ fetchSettings_cached (this (after (FetchSettingsGently k) st)) (Name k)
       = fetchSettings_cached (this st) (Name k).
Proof.
  intros realm S backend st k.
  change (after (FetchSettingsGently k) st) with (fetchSettingsGently k st).2.
  change (after (FetchSettings (Name k) true) st)
    with (fetchSettings (Name k) true st).2.
  rewrite fetchSettingsGently_run, fetchSettings_fresh_run.
  destruct (getValue _ _ _) as [[stored|e|] s]; simpl;
    repeat split; try reflexivity; try discriminate;
    try (intros [= ->]; reflexivity).
Qed.


Lemma registerHotkeys_run {realm : Realm} {S : Type} `{Storage S} (st : state S)
      (more : list Hotkey) :
  registerHotkeys more st =
  (Returned tt,
   (resetHotkeys (State (with_hotkeys (hotkeys (this st) ++ more) (this st))
                        (storage st) (hotkey_table st) (pathname st))).2).
Proof. reflexivity. Qed.

(** ** What no method changes *)

Lemma same_construction_refl (m : RE6Module) : same_construction m m.
Proof. repeat split. Qed.

Lemma same_construction_trans (m1 m2 m3 : RE6Module) :
  same_construction m1 m2 -> same_construction m2 m3 -> same_construction m1 m3.
Proof.
  intros (E1 & E2 & E3 & E4) (F1 & F2 & F3 & F4).
  repeat split; congruence.
Qed.

Lemma after_same_construction {realm : Realm} {S : Type} `{Storage S} (c : call) (st : state S) :
  same_construction (this st) (this (after c st)).
Proof.
  pose proof (after_keeps same_construction same_construction_refl
                          same_construction_trans
                          (fun _ _ => same_construction_refl _)
                          (fun _ _ => same_construction_refl _) c st) as Hf.
  destruct c; try exact Hf; try (repeat split; fail).
  apply (keeps_prepare same_construction same_construction_refl
                       same_construction_trans
                       (fun _ _ => same_construction_refl _)).
  intros e m. repeat split.
Qed.

Lemma after_hotkeys {realm : Realm} {S : Type} `{Storage S} (c : call) (st : state S) :
  hotkeys (this (after c st)) = hotkeys (this st) ++ declared_by c.
Proof.
  assert (Hr : forall m : RE6Module, same_field hotkeys m m) by done.
  assert (Ht : forall m1 m2 m3 : RE6Module,
             same_field hotkeys m1 m2 -> same_field hotkeys m2 m3 ->
             same_field hotkeys m1 m3).
  { unfold same_field. intros m1 m2 m3 E1 E2. by rewrite E2. }
  assert (Hs : forall (s : object) (m : RE6Module),
             same_field hotkeys m (with_settings (Some s) m)) by done.
  destruct c; simpl declared_by; rewrite ?app_nil_r; try reflexivity.
  - apply (keeps_prepare (same_field hotkeys) Hr Ht Hs). done.
  - apply (keeps_fetchSettings (same_field hotkeys) Hr Ht Hs).
  - apply (keeps_fetchSettingsGently (same_field hotkeys) Hr Ht).
  - apply (keeps_pushSettings (same_field hotkeys) Hr Ht Hs).
  - apply (keeps_clearSettings (same_field hotkeys) Hr Ht Hs).
  - apply (keeps_loadSettingsCache (same_field hotkeys) Hr Ht Hs).
  - apply (keeps_loadSettingsValues (same_field hotkeys) Hr Ht).
  - apply (keeps_saveSettingsCache (same_field hotkeys) Hr Ht).
  - apply (keeps_loadSettingsCache (same_field hotkeys) Hr Ht Hs).
  - apply (keeps_getSavedSettings (same_field hotkeys) Hr Ht).
  - apply (keeps_resetHotkeys (same_field hotkeys) Hr Ht Hs).
  - change (after (RegisterHotkeys more) st)
      with (registerHotkeys more st).2.
    rewrite registerHotkeys_run. simpl.
    apply (keeps_resetHotkeys (same_field hotkeys) Hr Ht Hs).
Qed.

(** X3.  No method changes what the constructor fixed: after any sequence of
    calls the settings tag, the constraint list, the DOM gate and the class
    defaults are the same, so [pageMatchesFilter] answers as before on every
    path and the storage key is the same.  The declared hotkey bindings are
    only added to: they are the earlier ones followed by those of the
    [registerHotkeys] calls, in call order. *)
Theorem construction_is_immutable :
  forall (realm : Realm) (S : Type) (backend : Storage S) (cs : list call)
         (st : state S),
    same_construction (this st) (this (after_all cs st))
    /\ own_key (after_all cs st) = own_key st
    /\ (forall p, pageMatchesFilter (this (after_all cs st)) p
                  = pageMatchesFilter (this st) p)
    /\ hotkeys (this (after_all cs st))
       = hotkeys (this st) ++ concat (declared_by <$> cs).
Proof.
  intros realm S backend cs st.
  assert (Hc : same_construction (this st) (this (after_all cs st))
               /\ hotkeys (this (after_all cs st))
                  = hotkeys (this st) ++ concat (declared_by <$> cs)).
  { revert st. unfold after_all.
    induction cs as [|c cs IH]; intros st; simpl.
    - split; [apply same_construction_refl | by rewrite app_nil_r].
    - destruct (IH (after c st)) as [IH1 IH2]. split.
      + eapply same_construction_trans; [apply after_same_construction | exact IH1].
      + rewrite IH2, after_hotkeys, <- app_assoc. reflexivity. }
  destruct Hc as [(E1 & E2 & E3 & E4) Hh].
  split; [repeat split; assumption|].
  split; [unfold own_key; by rewrite E1|].
  split; [intros p; unfold pageMatchesFilter; by rewrite E2|].
  exact Hh.
Qed.

(** ** Which methods write to the storage *)

Ltac read_storage Hro :=
  match goal with
  | |- context [getValue ?k ?d ?s] =>
      let Hs := fresh "Hs" in
      pose proof (Hro k d s) as Hs;
      destruct (getValue k d s) as [[?|?|] ?]; simpl in *; subst
  end.

Lemma after_reads_storage {realm : Realm} {S : Type} `{Storage S} (c : call) (st : state S) :
  (forall name d s, (getValue name d s).2 = s) ->
  writes_storage c = false ->
  storage (after c st) = storage st.
Proof.
  intros Hro Hw. destruct c; try discriminate; try reflexivity.
  - change (after Prepare st) with (prepare st).2.
    rewrite prepare_run. unfold own_key. read_storage Hro; reflexivity.
  - change (after (FetchSettings p fresh) st) with (fetchSettings p fresh st).2.
    destruct fresh; [|reflexivity].
    rewrite fetchSettings_fresh_run. unfold own_key.
    read_storage Hro; reflexivity.
  - change (after (FetchSettingsGently p) st) with (fetchSettingsGently p st).2.
    rewrite fetchSettingsGently_run. unfold own_key.
    read_storage Hro; reflexivity.
  - change (after LoadSettingsCache st) with (loadSettingsCache st).2.
    rewrite loadSettingsCache_run. read_storage Hro; reflexivity.
  - change (after LoadSettingsValues st) with (loadSettingsValues st).2.
    rewrite loadSettingsValues_run. read_storage Hro; reflexivity.
  - change (after RefreshSettings st) with (loadSettingsCache st).2.
    rewrite loadSettingsCache_run. read_storage Hro; reflexivity.
  - change (after GetSavedSettings st) with (getSavedSettings st).2.
    rewrite getSavedSettings_run. unfold own_key.
    read_storage Hro; reflexivity.
  - change (after ResetHotkeys st) with (resetHotkeys st).2.
    rewrite resetHotkeys_run. cbv zeta.
    read_storage Hro; try reflexivity.
    destruct (registrations_of _ _ _); reflexivity.
  - change (after (RegisterHotkeys more) st) with (registerHotkeys more st).2.
    rewrite registerHotkeys_run. cbn [snd]. rewrite resetHotkeys_run. cbv zeta.
    cbn [this storage hotkey_table pathname].
    read_storage Hro; try reflexivity.
    destruct (registrations_of _ _ _); reflexivity.
Qed.

(** X4.  On a backend whose reads do not change it, the storage is written
    by [pushSettings], [clearSettings] and the private [saveSettingsCache]
    only: after any sequence of the other calls ([prepare], the loads, every
    form of [fetchSettings], [getSavedSettings], [resetHotkeys],
    [registerHotkeys], the lifecycle calls) the storage is as it was.  In
    particular the defaults that a load backfills into the cache are not
    written back by loading. *)
Theorem only_push_and_clear_write :
  forall (realm : Realm) (S : Type) (backend : Storage S) (cs : list call)
         (st : state S),
    (forall name d s, (getValue name d s).2 = s) ->
    Forall (fun c => writes_storage c = false) cs ->
    storage (after_all cs st) = storage st.
Proof.
  intros realm S backend cs st Hro Hcs. revert st. unfold after_all.
  induction Hcs as [|c cs Hc _ IH]; intros st; simpl; [reflexivity|].
  rewrite IH. by apply after_reads_storage.
Qed.

Lemma only_push_and_clear_write_witness :
  let realm := empty_objects in
  let st : state kvstore :=
    State (constructor "Thumbs"
                       {[ "enabled" := VBool true; "zoom" := VBool true ]}
                       None None None)
          {| cells := {[ "re621.Thumbs" := {[ "enabled" := VBool false ]} ]};
             condition := Healthy |} [] "/posts" in
  storage (after_all [Prepare; FetchSettings (Name "zoom") true;
                      ResetHotkeys; GetSavedSettings] st)
  = storage st.
Proof.
  intros realm st. apply only_push_and_clear_write.
  - intros name d [c h]. simpl. by destruct h.
  - repeat constructor.
Defined.

(** ** One module, one storage cell *)

Lemma kvstore_reads_keep (name : string) (d : obj) (s : kvstore) :
  (getValue name d s).2 = s.
Proof. destruct s as [c h]. simpl. by destruct h. Qed.

(** The assignments of [pushSettings] touch the instance only, and of the
    instance the settings only. *)
Lemma assign_frame {realm : Realm} {S : Type} `{Storage S}
      (key : string) (v : value) (st : state S) :
  storage (assign key v st).2 = storage st
  /\ settingsTag (this (assign key v st).2) = settingsTag (this st).
Proof.
  unfold assign. destruct (settings (this st)); [|done].
  destruct (prop_set _ _ _); done.
Qed.

Lemma merge_frame {realm : Realm} {S : Type} `{Storage S}
      (p : pushed) (st : state S) :
  let merge :=
    match p with
    | Pair property v => assign property v
    | Record_ property =>
        forEach property.*1 (fun key => assign key (own_get property key))
    end in
  storage (merge st).2 = storage st
  /\ settingsTag (this (merge st).2) = settingsTag (this st).
Proof.
  destruct p as [property v|property]; simpl; [apply assign_frame|].
  generalize (property.*1). intros l. revert st.
  induction l as [|key l IH]; intros st; simpl; [done|].
  unfold bind. destruct (assign_frame key (own_get property key) st) as [E1 E2].
  destruct (assign key (own_get property key) st) as [[[]|e|] st']; simpl in *;
    try done.
  destruct (IH st') as [F1 F2]. split; congruence.
Qed.

(** The storage after [pushSettings]: as the reload left it, or written
    once under the module's key. *)
Lemma pushSettings_storage {realm : Realm} {S : Type} `{Storage S}
      (p : pushed) (st : state S) (Q : S -> Prop) :
  (forall name d s, (getValue name d s).2 = s) ->
  Q (storage st) ->
  (forall record, Q (setValue (own_key st) record (storage st)).2) ->
  Q (storage (pushSettings p st).2).
Proof.
  intros Hro Hsame Hset. unfold pushSettings, bind at 1.
  rewrite loadSettingsCache_run.
  pose proof (Hro ("re621." +:+ settingsTag (this st))
                  (getDefaultSettings (this st)) (storage st)) as Hs.
  destruct (getValue _ _ (storage st)) as [r s].
  simpl in Hs. subst s.
  destruct r as [stored|e|]; simpl; try done.
  unfold bind at 1.
  match goal with
  | |- context [match ?c ?x with _ => _ end] =>
      pose proof (merge_frame p x) as Hm; cbv zeta in Hm;
      destruct (c x) as [[[]|e|] st2]
  end; cbn [snd storage this with_settings settingsTag] in Hm;
    destruct Hm as [Es Et]; cbn [snd]; try (by rewrite Es).
  rewrite saveSettingsCache_run.
  destruct (settings (this st2)) as [record|]; [|cbn [snd]; by rewrite Es].
  unfold own_key in *. rewrite Et, Es.
  specialize (Hset (own record)).
  by destruct (setValue _ _ _).
Qed.

Lemma kv_pushSettings_cell {realm : Realm} (p : pushed) (st : state kvstore)
      (k : string) :
  k <> own_key st ->
  cells (storage (pushSettings p st).2) !! k = cells (storage st) !! k
  /\ condition (storage (pushSettings p st).2) = condition (storage st).
Proof.
  intros Hk.
  apply (pushSettings_storage p st
           (fun s => cells s !! k = cells (storage st) !! k
                     /\ condition s = condition (storage st)));
    [apply kvstore_reads_keep | done |].
  intros record. destruct (storage st) as [cs h].
  destruct h; simpl; split; try done.
  by rewrite lookup_insert_ne.
Qed.

Lemma after_kv_cell {realm : Realm} (c : call) (st : state kvstore)
      (k : string) :
  k <> own_key st ->
  cells (storage (after c st)) !! k = cells (storage st) !! k
  /\ condition (storage (after c st)) = condition (storage st).
Proof.
  intros Hk. destruct (writes_storage c) eqn:Hw.
  - destruct c; try discriminate.
    + by apply kv_pushSettings_cell.
    + change (after ClearSettings st) with (clearSettings st).2.
      rewrite clearSettings_run.
      destruct st as [m [cs h] t pth]. unfold own_key in Hk. simpl in *.
      destruct h; simpl; rewrite ?loadSettingsCache_run; simpl;
        split; try reflexivity.
      by rewrite lookup_delete_ne.
    + change (after SaveSettingsCache st) with (saveSettingsCache st).2.
      rewrite saveSettingsCache_run.
      destruct st as [m [cs h] t pth]. unfold own_key in *. simpl in *.
      destruct (settings m) as [record|]; [|split; reflexivity].
      destruct h; simpl; split; try reflexivity.
      by rewrite lookup_insert_ne.
  - rewrite (after_reads_storage c st kvstore_reads_keep Hw). split; reflexivity.
Qed.

Lemma after_all_kv_cell {realm : Realm} (cs : list call) (st : state kvstore)
      (k : string) :
  k <> own_key st ->
  cells (storage (after_all cs st)) !! k = cells (storage st) !! k
  /\ condition (storage (after_all cs st)) = condition (storage st).
Proof.
  revert st. unfold after_all.
  induction cs as [|c cs IH]; intros st Hk; simpl; [split; reflexivity|].
  destruct (after_kv_cell c st k Hk) as [E1 E2].
  destruct (IH (after c st)) as [F1 F2].
  - unfold own_key.
    destruct (after_same_construction c st) as (-> & _). exact Hk.
  - split; congruence.
Qed.

Lemma own_key_inj (tag tag' : string) :
  "re621." +:+ tag = "re621." +:+ tag' -> tag = tag'.
Proof. simpl. intros E. by injection E. Qed.

(** X5.  On the key/value store, whatever a module does, it only ever
    changes the cell under its own key ["re621." + settingsTag]: after any
    sequence of calls every other cell is as it was.  So what another
    module, with another tag, loads from the shared store is not affected by
    these calls. *)
Theorem own_cell_only :
  forall (realm : Realm) (cs : list call) (st : state kvstore),
    (forall k, k <> own_key st ->
               cells (storage (after_all cs st)) !! k = cells (storage st) !! k)
    /\ (forall (other : RE6Module) (t : Hotkeys.table) (p : string),
           settingsTag other <> settingsTag (this st) ->
           (loadSettingsValues (State other (storage (after_all cs st)) t p)).1
           = (loadSettingsValues (State other (storage st) t p)).1).
Proof.
  intros realm cs st. split.
  - intros k Hk. by apply after_all_kv_cell.
  - intros other t p Hne.
    assert (Hk : "re621." +:+ settingsTag other <> own_key st).
    { intros E. apply Hne. by apply own_key_inj. }
    destruct (after_all_kv_cell cs st _ Hk) as [E1 E2].
    rewrite !loadSettingsValues_run. cbn [this storage].
    change (getValue ?k ?d ?s) with
      (match condition s with
       | Unavailable => (Threw StorageError, s)
       | _ => (Returned (default d (cells s !! k)), s)
       end).
    rewrite E1, E2.
    destruct (condition (storage st)); reflexivity.
Qed.

Lemma own_cell_only_witness :
  let realm := empty_objects in
  let thumbs : state kvstore :=
    State (constructor "Thumbs" base_defaults None None None)
          {| cells := {[ "re621.SmartAlias" := {[ "enabled" := VBool false ]} ]};
             condition := Healthy |} [] "/posts" in
  let alias := constructor "SmartAlias" base_defaults None None None in
  let cs := [PushSettings (Pair "enabled" (VBool true)); ClearSettings;
             PushSettings (Pair "zoom" (VNum 2))] in
  cells (storage (after_all cs thumbs)) !! "re621.SmartAlias"
  = Some {[ "enabled" := VBool false ]}
  /\ (loadSettingsValues (State alias (storage (after_all cs thumbs)) [] "/")).1
     = Returned (plain {[ "enabled" := VBool false ]}).
Proof.
  intros realm thumbs alias cs.
  destruct (own_cell_only realm cs thumbs) as [Hcell Hload].
  split.
  - rewrite Hcell; [reflexivity | discriminate].
  - rewrite Hload; [vm_compute; reflexivity | discriminate].
Defined.

(** ** What a reload keeps of a push *)

(** X6.  A pushed value survives a reload unless it is [undefined] under a
    key that has a default.  Whatever the backend, for a push without the
    key [__proto__]: if [pushSettings(p)] resolves and the next storage read
    returns the record that was written, then after [refreshSettings()] the
    cache is the backfill of that record; a pushed value other than
    [undefined] is read back unchanged, a pushed [undefined] is read back as
    the key's default when there is one. *)
Theorem push_survives_reload :
  forall (realm : Realm) (S : Type) (backend : Storage S) (st : state S)
         (p : pushed) (b : bool) (record : obj) (s : S),
    proto_free p ->
    (pushSettings p st).1 = Returned b ->
    settings (this (after (PushSettings p) st)) = Some (plain record) ->
    getValue (own_key st) (getDefaultSettings (this st))
             (storage (after (PushSettings p) st)) = (Returned record, s) ->
    let D := getDefaultSettings (this st) in
    let reloaded := after RefreshSettings (after (PushSettings p) st) in
    settings (this reloaded) = Some (plain (backfilled D record))
    /\ (forall x v, pushes p x v -> v <> VUndefined ->
                    fetchSettings_cached (this reloaded) (Name x)
                    = Returned (Single v))
    /\ (forall x d, pushes p x VUndefined -> D !! x = Some d ->
                    fetchSettings_cached (this reloaded) (Name x)
                    = Returned (Single d)).
Proof.
  intros realm S backend st p b record s Hfree Hr Hc Hg D reloaded.
  assert (Hrec : forall x v, pushes p x v -> record !! x = Some v).
  { intros x v Hp. revert Hr Hc.
    change (after (PushSettings p) st) with (pushSettings p st).2.
    rewrite pushSettings_run by done. cbv zeta.
    destruct (getValue _ _ (storage st)) as [[stored|e|] s0]; simpl;
      try discriminate.
    destruct (setValue _ _ _) as [r' s']. simpl. intros _ [= <-].
    by apply merged_pushes. }
  assert (Hload : settings (this reloaded) = Some (plain (backfilled D record))).
  { subst reloaded.
    change (after RefreshSettings ?x) with (loadSettingsCache x).2.
    rewrite loadSettingsCache_run.
    destruct (after_same_construction (PushSettings p) st) as (Et & _ & _ & Ed).
    rewrite Et, Ed. fold (own_key st). rewrite Hg. reflexivity. }
  split; [exact Hload|].
  unfold fetchSettings_cached, settings_get. rewrite Hload.
  split.
  - intros x v Hp Hv. rewrite prop_get_plain, backfilled_lookup.
    rewrite (Hrec x v Hp). destruct v, (D !! x); try reflexivity; done.
  - intros x d Hp Hd. rewrite prop_get_plain, backfilled_lookup.
    by rewrite (Hrec x VUndefined Hp), Hd.
Qed.

Lemma push_survives_reload_witness :
  let realm := empty_objects in
  let D : obj := {[ "enabled" := VBool true; "zoom" := VBool true ]} in
  let st : state kvstore :=
    State (constructor "Thumbs" D None None None)
          {| cells := ∅; condition := Healthy |} [] "/posts" in
  let p := Record_ [("zoom", VUndefined); ("crop", VBool false)] in
  let reloaded := after RefreshSettings (after (PushSettings p) st) in
  fetchSettings_cached (this (after (PushSettings p) st)) (Name "zoom")
  = Returned (Single VUndefined)
  /\ fetchSettings_cached (this reloaded) (Name "zoom")
     = Returned (Single (VBool true))
  /\ fetchSettings_cached (this reloaded) (Name "crop")
     = Returned (Single (VBool false)).
Proof.
  intros realm D st p reloaded.
  destruct (push_survives_reload realm kvstore kvstore_storage st p true
              (merged p D) (storage (after (PushSettings p) st)))
    as (_ & Hkeep & Hundef);
    try (vm_compute; reflexivity); [no_proto|].
  split; [vm_compute; reflexivity|]. split.
  - apply (Hundef "zoom" (VBool true)); vm_compute; reflexivity.
  - apply (Hkeep "crop" (VBool false)); [vm_compute; reflexivity | discriminate].
Defined.

(** ** What is exported *)

(** X7.  [getSavedSettings] reports the record as it is stored, without the
    default backfill, under the module's storage key, and leaves the
    instance and the store alone.  On the key/value store: when nothing is
    stored the data is the empty record although a load yields the defaults;
    when a record is stored the data is that record and a load yields its
    backfill; and right after a [pushSettings] without the key [__proto__]
    on the working store the data is exactly the cached record. *)
Theorem saved_settings_are_raw :
  forall (realm : Realm) (st : state kvstore),
    condition (storage st) <> Unavailable ->
    let D := getDefaultSettings (this st) in
    this (after GetSavedSettings st) = this st
    /\ storage (after GetSavedSettings st) = storage st
    /\ (cells (storage st) !! own_key st = None ->
        (getSavedSettings st).1 = Returned (own_key st, ∅)
        /\ (loadSettingsValues st).1 = Returned (plain D))
    /\ (forall stored, cells (storage st) !! own_key st = Some stored ->
          (getSavedSettings st).1 = Returned (own_key st, stored)
          /\ (loadSettingsValues st).1 = Returned (plain (backfilled D stored)))
    /\ (forall p, condition (storage st) = Healthy -> proto_free p ->
          exists record,
            settings (this (after (PushSettings p) st)) = Some (plain record)
            /\ (getSavedSettings (after (PushSettings p) st)).1
               = Returned (own_key st, record)).
Proof.
  intros realm st Hc D. subst D.
  change (after GetSavedSettings st) with (getSavedSettings st).2.
  rewrite getSavedSettings_run, loadSettingsValues_run. fold (own_key st).
  destruct st as [m [cs h] t pth]. unfold own_key.
  cbn [this storage cells condition hotkey_table pathname] in *.
  destruct h; [| |done].
  all: cbn [getValue kvstore_storage condition cells fst snd].
  all: split; [reflexivity|]; split; [reflexivity|].
  all: split; [intros ->; cbn [default]; by rewrite backfilled_self|].
  all: split; [by intros stored ->|].
  all: intros p Hh Hfree; try discriminate.
  change (after (PushSettings p) ?x) with (pushSettings p x).2.
  rewrite kv_pushSettings_healthy by done. cbv zeta. cbn [snd].
  eexists. split; [reflexivity|].
  rewrite getSavedSettings_run. unfold own_key.
  cbn [this storage cells condition getValue kvstore_storage fst
       settingsTag with_settings].
  by rewrite lookup_insert_eq.
Qed.

Lemma saved_settings_are_raw_witness :
  let realm := empty_objects in
  let D : obj := {[ "enabled" := VBool true; "zoom" := VBool true ]} in
  let st : state kvstore :=
    State (constructor "Thumbs" D None None None)
          {| cells := ∅; condition := Healthy |} [] "/posts" in
  (getSavedSettings st).1 = Returned ("re621.Thumbs", ∅)
  /\ (loadSettingsValues st).1 = Returned (plain D).
Proof.
  intros realm D st.
  destruct (saved_settings_are_raw realm st) as (_ & _ & Hnone & _);
    [discriminate|].
  apply Hnone. reflexivity.
Defined.

(** ** Several bindings *)

Lemma registrations_of_app {realm : Realm} (page_match : bool)
      (values : object) (first later : list Hotkey) :
  registrations_of page_match values (first ++ later) =
  match registrations_of page_match values first with
  | (Returned _, made) =>
      let '(r, made') := registrations_of page_match values later in
      (r, made ++ made')
  | failed => failed
  end.
Proof.
  induction first as [|value first IH]; simpl.
  - by destruct (registrations_of page_match values later).
  - destruct (split_value (prop_get values (keys value))) as [combos|e|];
      try reflexivity.
    rewrite IH.
    destruct (registrations_of page_match values first) as [[[]|e|] made];
      try reflexivity.
    destruct (registrations_of page_match values later) as [r made'].
    by rewrite app_assoc.
Qed.

Lemma registrations_of_strings_all {realm : Realm} (page_match : bool)
      (values : object) (bindings : list Hotkey) :
  (forall value, value ∈ bindings ->
                 exists s, prop_get values (keys value) = VStr s) ->
  (registrations_of page_match values bindings).1 = Returned tt.
Proof.
  induction bindings as [|value bindings IH]; intros Hall; [reflexivity|].
  simpl. destruct (Hall value) as [s ->]; [apply list_elem_of_here|]. simpl.
  specialize (IH (fun v Hv => Hall v (list_elem_of_further _ _ _ Hv))).
  destruct (registrations_of page_match values bindings) as [r later].
  exact IH.
Qed.

(** X8.  [resetHotkeys] stops at the first binding whose setting is not a
    string: the call rejects with a [TypeError], the registrations of the
    bindings declared before it have been made and stay, none is made for
    it or for the bindings declared after it, and the cache is the reloaded
    one all the same. *)
Theorem resetHotkeys_stops_at_bad_binding :
  forall (realm : Realm) (S : Type) (backend : Storage S) (st : state S)
         (stored : obj) (s : S) (good rest : list Hotkey) (bad : Hotkey),
    getValue (own_key st) (getDefaultSettings (this st)) (storage st)
    = (Returned stored, s) ->
    let values := plain (backfilled (getDefaultSettings (this st)) stored) in
    hotkeys (this st) = good ++ bad :: rest ->
    (forall value, value ∈ good ->
                   exists c, prop_get values (keys value) = VStr c) ->
    (forall c, prop_get values (keys bad) <> VStr c) ->
    (resetHotkeys st).1 = Threw TypeError
    /\ settings (this (after ResetHotkeys st)) = Some values
    /\ (registrations_of (pageMatchesFilter (this st) (pathname st))
                         values good).1 = Returned tt
    /\ hotkey_table (after ResetHotkeys st)
       = rev (registrations_of (pageMatchesFilter (this st) (pathname st))
                               values good).2
         ++ hotkey_table st.
Proof.
  intros realm S backend st stored s good rest bad Hg values Hh Hgood Hbad.
  change (after ResetHotkeys st) with (resetHotkeys st).2.
  rewrite resetHotkeys_run. cbv zeta. fold (own_key st). rewrite Hg.
  fold values. rewrite Hh, registrations_of_app.
  pose proof (registrations_of_strings_all
                (pageMatchesFilter (this st) (pathname st)) values good Hgood)
    as Hok.
  destruct (registrations_of _ values good) as [r made]. simpl in Hok.
  subst r. cbn [registrations_of].
  destruct (prop_get values (keys bad)) as [| | | |c|] eqn:E;
    cbn [split_value fst snd];
    try (rewrite app_nil_r; repeat split; reflexivity).
  by destruct (Hbad c).
Qed.

Lemma resetHotkeys_stops_at_bad_binding_witness :
  let realm := empty_objects in
  let focus := {| keys := "hotkeyFocus"; fnct := Declared 1;
                  element := None; selector := None |} in
  let broken := {| keys := "hotkeyMissing"; fnct := Declared 2;
                   element := None; selector := None |} in
  let submit := {| keys := "hotkeySubmit"; fnct := Declared 3;
                   element := None; selector := None |} in
  let D : obj := {[ "enabled" := VBool true; "hotkeyFocus" := VStr "q";
                    "hotkeySubmit" := VStr "alt+return" ]} in
  let st : state kvstore :=
    State (with_hotkeys [focus; broken; submit]
                        (constructor "Search" D None None None))
          {| cells := ∅; condition := Healthy |} [] "/posts" in
  (resetHotkeys st).1 = Threw TypeError
  /\ hotkey_table (after ResetHotkeys st)
     = [binding_registration true focus "q"].
Proof.
  intros realm focus broken submit D st.
  destruct (resetHotkeys_stops_at_bad_binding realm kvstore kvstore_storage st D
              (storage st) [focus] [submit] broken)
    as (Hr & _ & _ & Ht).
  - reflexivity.
  - reflexivity.
  - intros value Hv. apply list_elem_of_singleton in Hv as ->.
    exists "q". vm_compute. reflexivity.
  - intros c. vm_compute. discriminate.
  - split; [exact Hr|]. rewrite Ht. vm_compute. reflexivity.
Defined.




(** ** Which handler is armed *)

Lemma armed_app (made older : Hotkeys.table) (key : string) :
  Hotkeys.armed (made ++ older) key =
  match Hotkeys.armed made key with
  | Some r => Some r
  | None => Hotkeys.armed older key
  end.
Proof.
  induction made as [|r made IH]; simpl; [reflexivity|].
  destruct (String.eqb (reg_key r) key); [reflexivity | exact IH].
Qed.

Lemma armed_none (made : Hotkeys.table) (key : string) :
  (forall r, r ∈ made -> reg_key r <> key) ->
  Hotkeys.armed made key = None.
Proof.
  induction made as [|r made IH]; intros Hall; simpl; [reflexivity|].
  destruct (String.eqb_spec (reg_key r) key) as [E|_].
  - exfalso. eapply Hall; [apply list_elem_of_here | exact E].
  - apply IH. intros r' Hr'. apply Hall. by apply list_elem_of_further.
Qed.

Lemma registrations_of_origin {realm : Realm} (page_match : bool)
      (values : object) (bindings : list Hotkey) (r : registration) :
  r ∈ (registrations_of page_match values bindings).2 ->
  exists value s,
    value ∈ bindings /\ prop_get values (keys value) = VStr s
    /\ reg_key r ∈ split "|" s /\ reg_key r <> ""
    /\ r = binding_registration page_match value (reg_key r).
Proof.
  induction bindings as [|value bindings IH]; simpl.
  - intros Hr. by apply not_elem_of_nil in Hr.
  - destruct (prop_get values (keys value)) as [| | | |s|] eqn:E; simpl;
      try (intros Hr; by apply not_elem_of_nil in Hr).
    destruct (registrations_of page_match values bindings) as [o later].
    simpl in *. intros Hr. apply elem_of_app in Hr as [Hr|Hr].
    + apply binding_registrations_elem in Hr as (key & -> & Hk & Hne).
      exists value, s. rewrite reg_key_binding.
      repeat split; try done. apply list_elem_of_here.
    + destruct (IH Hr) as (value' & s' & Hin & Hs & Hk & Hne & Heq).
      exists value', s'. repeat split; try done.
      by apply list_elem_of_further.
Qed.

(** X10.  Running [resetHotkeys] again changes no armed handler.  On a
    backend whose reads do not change it, after two runs in a row every
    combination is armed with the same registration as after one run
    (the second run registers the same bindings over again). *)
Theorem resetHotkeys_again_arms_the_same :
  forall (realm : Realm) (S : Type) (backend : Storage S) (st : state S)
         (key : string),
    (forall name d s, (getValue name d s).2 = s) ->
    Hotkeys.armed (hotkey_table (after_all [ResetHotkeys; ResetHotkeys] st)) key
    = Hotkeys.armed (hotkey_table (after ResetHotkeys st)) key.
Proof.
  intros realm S backend st key Hro.
  change (after_all [ResetHotkeys; ResetHotkeys] st)
    with (resetHotkeys (resetHotkeys st).2).2.
  change (after ResetHotkeys st) with (resetHotkeys st).2.
  rewrite (resetHotkeys_run st). cbv zeta.
  pose proof (Hro ("re621." +:+ settingsTag (this st))
                  (getDefaultSettings (this st)) (storage st)) as Hs.
  destruct (getValue _ _ (storage st)) as [[stored|e|] s] eqn:E;
    simpl in Hs; subst s.
  - destruct (registrations_of _ _ _) as [r made] eqn:Er.
    cbn [snd]. rewrite resetHotkeys_run. cbv zeta.
    cbn [this storage hotkey_table pathname settingsTag getDefaultSettings
         with_settings hotkeys].
    rewrite E.
    change (pageMatchesFilter (with_settings ?v ?m) ?p)
      with (pageMatchesFilter m p).
    rewrite Er. cbn [snd hotkey_table].
    rewrite !armed_app. by destruct (Hotkeys.armed (rev made) key).
  - cbn [snd]. rewrite resetHotkeys_run. cbv zeta.
    cbn [this storage hotkey_table pathname]. rewrite E. reflexivity.
  - cbn [snd]. rewrite resetHotkeys_run. cbv zeta.
    cbn [this storage hotkey_table pathname]. rewrite E. reflexivity.
Qed.

Lemma resetHotkeys_again_arms_the_same_witness :
  let realm := empty_objects in
  let focus := {| keys := "hotkeyFocus"; fnct := Declared 1;
                  element := None; selector := None |} in
  let st : state kvstore :=
    State (with_hotkeys [focus]
             (constructor "Search"
                          {[ "enabled" := VBool true; "hotkeyFocus" := VStr "q" ]}
                          None None None))
          {| cells := ∅; condition := Healthy |} [] "/posts" in
  Hotkeys.armed (hotkey_table (after_all [ResetHotkeys; ResetHotkeys] st)) "q"
  = Some (binding_registration true focus "q").
Proof.
  intros realm focus st.
  rewrite (resetHotkeys_again_arms_the_same realm kvstore kvstore_storage st "q"
             kvstore_reads_keep).
  vm_compute. reflexivity.
Defined.

(** X11.  When several bindings are configured with the same combination,
    the binding declared last wins: after a completed [resetHotkeys], a
    combination that is a non-empty segment of a binding's string, and of
    no string of a binding declared after it, is armed with that binding's
    registration, whatever the bindings declared before it are. *)
Theorem last_declared_binding_wins :
  forall (realm : Realm) (S : Type) (backend : Storage S) (st : state S)
         (earlier later : list Hotkey) (value : Hotkey) (s key : string),
    (resetHotkeys st).1 = Returned tt ->
    hotkeys (this st) = earlier ++ value :: later ->
    settings_get (this (after ResetHotkeys st)) (keys value)
    = Returned (VStr s) ->
    key ∈ split "|" s -> key <> "" ->
    (forall other s', other ∈ later ->
                      settings_get (this (after ResetHotkeys st)) (keys other)
                      = Returned (VStr s') ->
                      key ∉ split "|" s') ->
    Hotkeys.armed (hotkey_table (after ResetHotkeys st)) key
    = Some (binding_registration (pageMatchesFilter (this st) (pathname st))
                                 value key).
Proof.
  intros realm S backend st earlier later value s key Hr Hh Hs Hk Hne Hlater.
  destruct (resetHotkeys_completed st Hr) as (values & Hv & Hok & Ht).
  unfold settings_get in Hs, Hlater. rewrite Hv in Hs, Hlater.
  injection Hs as Hs. rewrite Ht. clear Ht.
  rewrite Hh in *. rewrite registrations_of_app in *.
  set (pm := pageMatchesFilter (this st) (pathname st)) in *.
  destruct (registrations_of pm values earlier) as [[[]|e|] made];
    simpl in Hok; try discriminate.
  cbn [registrations_of] in *. rewrite Hs in *. cbn [split_value] in *.
  pose proof (registrations_of_origin pm values later) as Horigin.
  destruct (registrations_of pm values later) as [r made']. cbn [snd] in *.
  rewrite !rev_app_distr, <- !app_assoc.
  rewrite armed_app, armed_none.
  - apply armed_binding; assumption.
  - intros reg Hreg E.
    apply list_elem_of_In, in_rev, list_elem_of_In in Hreg.
    destruct (Horigin reg Hreg) as (other & s' & Hin & Hs' & Hk' & _).
    apply (Hlater other s' Hin); [by rewrite Hs'|]. by rewrite <- E.
Qed.

Lemma last_declared_binding_wins_witness :
  let realm := empty_objects in
  let focus := {| keys := "hotkeyFocus"; fnct := Declared 1;
                  element := None; selector := None |} in
  let submit := {| keys := "hotkeySubmit"; fnct := Declared 3;
                   element := None; selector := None |} in
  let D : obj := {[ "enabled" := VBool true; "hotkeyFocus" := VStr "q|s";
                    "hotkeySubmit" := VStr "q" ]} in
  let st : state kvstore :=
    State (with_hotkeys [focus; submit] (constructor "Search" D None None None))
          {| cells := ∅; condition := Healthy |} [] "/posts" in
  Hotkeys.armed (hotkey_table (after ResetHotkeys st)) "q"
  = Some (binding_registration (pageMatchesFilter (this st) (pathname st))
                               submit "q")
  /\ pageMatchesFilter (this st) (pathname st) = true.
Proof.
  intros realm focus submit D st. split; [|reflexivity].
  refine (last_declared_binding_wins realm kvstore kvstore_storage st
            [focus] [] submit "q" "q" _ _ _ _ _ _).
  - vm_compute; reflexivity.
  - vm_compute; reflexivity.
  - vm_compute; reflexivity.
  - apply list_elem_of_here.
  - discriminate.
  - intros other s' Hin. exfalso. inversion Hin.
Defined.

(** ** Before and after [prepare] *)




(** ** The page definitions *)

Lemma is_digit_not_slash (c : ascii) : is_digit c = true -> c <> "/"%char.
Proof. intros E ->. discriminate E. Qed.

Lemma digits_then_optional_slash_spec (seen : bool) (s : string) :
  digits_then_optional_slash seen s = true <->
  exists ds, all_digits ds = true
             /\ (seen = true \/ ds <> "")
             /\ (s = ds \/ s = ds +:+ "/").
Proof.
  revert seen. induction s as [|c rest IH]; intros seen; simpl.
  - split.
    + intros ->. exists "". auto.
    + intros (ds & _ & Hseen & [<-|E]).
      * by destruct Hseen.
      * by destruct ds.
  - destruct (is_digit c) eqn:Hc.
    + rewrite IH. split.
      * intros (ds & Hd & _ & Hs). exists (String c ds). simpl.
        rewrite Hc, Hd. split; [done|]. split; [by right|].
        destruct Hs as [->| ->]; auto.
      * intros (ds & Hd & _ & Hs). destruct ds as [|c' ds].
        -- destruct Hs as [Hs|Hs]; [discriminate Hs|].
           simpl in Hs. injection Hs as -> _. discriminate Hc.
        -- simpl in Hd. apply andb_prop in Hd as [_ Hd].
           exists ds. split; [done|]. split; [by left|].
           destruct Hs as [Hs|Hs]; simpl in Hs; injection Hs as _ ->; auto.
    + split.
      * intros [[-> Hslash]%andb_prop Hrest]%andb_prop.
        apply Ascii.eqb_eq in Hslash as ->.
        destruct rest; [|discriminate]. exists "". auto.
      * intros (ds & Hd & Hseen & Hs). destruct ds as [|c' ds].
        -- destruct Hs as [Hs|Hs]; [discriminate Hs|].
           simpl in Hs. injection Hs as -> ->.
           destruct Hseen as [->|Hne]; done.
        -- simpl in Hd. apply andb_prop in Hd as [Hc' _].
           destruct Hs as [Hs|Hs]; simpl in Hs; injection Hs as -> _;
             congruence.
Qed.

(** Takes the next character off [s] when the test [Ht] fixes it. *)
Ltac fixed_char Ht s :=
  destruct s as [|[b0 b1 b2 b3 b4 b5 b6 b7] s]; [discriminate Ht|];
  destruct b0; try discriminate Ht; destruct b1; try discriminate Ht;
  destruct b2; try discriminate Ht; destruct b3; try discriminate Ht;
  destruct b4; try discriminate Ht; destruct b5; try discriminate Ht;
  destruct b6; try discriminate Ht; destruct b7; try discriminate Ht.

Lemma post_prefix (s : string) :
  test PageDefintion_post s = true ->
  exists rest, s = "/posts/" +:+ rest
               /\ digits_then_optional_slash false rest = true.
Proof.
  intros Ht. do 7 fixed_char Ht s.
  exists s. split; [reflexivity | exact Ht].
Qed.

Lemma prefix_app (a s : string) :
  String.prefix a s = true <-> exists rest, s = a +:+ rest.
Proof.
  revert s. induction a as [|c a IH]; intros s.
  - destruct s; (split; [eauto | done]).
  - destruct s as [|c' s]; simpl.
    + split; [discriminate|]. intros [rest E].
      change (String c a +:+ rest) with (String c (a +:+ rest)) in E.
      discriminate E.
    + destruct (Ascii.ascii_dec c c') as [<-|Hne].
      * rewrite IH.
        change (fun rest => String c s = String c a +:+ rest)
          with (fun rest => String c s = String c (a +:+ rest)).
        split; intros [rest E]; exists rest; congruence.
      * split; [discriminate|]. intros [rest E].
        change (String c a +:+ rest) with (String c (a +:+ rest)) in E.
        congruence.
Qed.

(** X13.  Which paths the page definitions accept, and what that makes of
    [Page.matches].  The post pattern accepts exactly ["/posts/"] followed
    by one or more digits and at most one ["/"]; the search pattern exactly
    the empty path, ["/posts"] and ["/posts/"]; the forum pattern every
    path that begins with ["/forum_topics"].  Since [Page.matches] takes one
    trailing ["/"] or ["?"] off the path before testing, a search module
    also runs on the site root ["/"], and a post module also on a post path
    with a doubled trailing slash, but on no path that goes on after the
    post's number. *)
Theorem page_definitions_accept :
  (forall s : string,
      test PageDefintion_post s = true <->
      exists ds, all_digits ds = true /\ ds <> ""
                 /\ (s = "/posts/" +:+ ds \/ s = "/posts/" +:+ ds +:+ "/"))
  /\ (forall s : string,
         test PageDefintion_search s = true <->
         s = "" \/ s = "/posts" \/ s = "/posts/")
  /\ (forall s : string,
         test PageDefintion_forum s = true <->
         exists rest, s = "/forum_topics" +:+ rest)
  /\ (forall p : string,
         Page.matches (OnePattern PageDefintion_search) p = true <->
         strip_trailing p = "" \/ strip_trailing p = "/posts"
         \/ strip_trailing p = "/posts/")
  /\ (Page.matches (OnePattern PageDefintion_search) "/" = true
      /\ Page.matches (OnePattern PageDefintion_post) "/posts/45//" = true
      /\ Page.matches (OnePattern PageDefintion_post) "/posts/45/edit" = false
      /\ Page.matches (OnePattern PageDefintion_post) "/posts/" = false
      /\ Page.matches (OnePattern PageDefintion_forum) "/forum_topics/12?page=2"
         = true
      /\ Page.matches (Patterns [PageDefintion_search; PageDefintion_post])
                      "/posts/45" = true).
Proof.
  split.
  { intros s. split.
    - intros (rest & -> & Ht)%post_prefix.
      apply digits_then_optional_slash_spec in Ht as (ds & Hd & [Hf|Hne] & Hs);
        [discriminate Hf|].
      exists ds. split; [done|]. split; [done|].
      destruct Hs as [->| ->]; auto.
    - intros (ds & Hd & Hne & [->| ->]); simpl;
        apply digits_then_optional_slash_spec; exists ds; auto. }
  split.
  { intros s. simpl. rewrite !orb_true_iff, !String.eqb_eq. tauto. }
  split.
  { intros s. apply prefix_app. }
  split.
  { intros p. unfold Page.matches. simpl.
    rewrite !orb_true_iff, !String.eqb_eq. tauto. }
  repeat split; reflexivity.
Qed.
